(** * ONNX importer: a shallow embedding of [lib/Importer/ONNX.cpp]

    The development follows the source file top to bottom: the protobuf
    messages it reads, the tensors it materialises, the attribute
    dictionary, the shared policies ([getBroadcast], [getPads]), the
    version check, the per-operator lowering ([loadOperator]) and the two
    load pipelines.  Assertions of the source ([assert], [GLOW_ASSERT]) are
    failures of the embedding; the loader object is an explicit state. *)

From Stdlib Require Import ZArith Lia.
From stdpp Require Import base option list strings gmap.

Local Open Scope string_scope.
Local Open Scope list_scope.
Local Open Scope Z_scope.

(** ** Failures *)

(** The failure taxonomy of the importer.  Every assertion of the source is
    embedded as [Fail kind msg] where [msg] is the assertion's message. *)
Inductive ErrorKind : Type :=
| FormatError
| VersionError
| UnsupportedTensorKind
| UnsupportedAttributeShape
| ShapeInvariantViolation
| UsageError.

Inductive Failure : Type :=
| Fail (kind : ErrorKind) (msg : string).

Inductive Result (A : Type) : Type :=
| Ok (a : A)
| Err (e : Failure).
Arguments Ok {A} a.
Arguments Err {A} e.

#[global] Instance Result_ret : MRet Result := fun A a => Ok a.
#[global] Instance Result_bind : MBind Result := fun A B f m =>
  match m with
  | Ok a => f a
  | Err e => Err e
  end.

Definition is_Ok {A} (r : Result A) : Prop := exists a, r = Ok a.
Definition is_Err {A} (r : Result A) : Prop := exists e, r = Err e.

(** [assert(c && msg)] *)
Definition assert (c : bool) (kind : ErrorKind) (msg : string) : Result unit :=
  if c then Ok tt else Err (Fail kind msg).

(** ** Machine integers

    Integers are mathematical [Z]; the conversions the source performs
    implicitly are written out. *)
Definition wrap_unsigned (w z : Z) : Z := z mod 2 ^ w.
Definition wrap_signed (w z : Z) : Z := (z + 2 ^ (w - 1)) mod 2 ^ w - 2 ^ (w - 1).

Definition to_size_t : Z -> Z := wrap_unsigned 64.
Definition to_unsigned : Z -> Z := wrap_unsigned 32.
Definition to_int : Z -> Z := wrap_signed 32.
Arguments to_size_t : simpl never.
Arguments to_unsigned : simpl never.
Arguments to_int : simpl never.

(** A float32 is carried as its IEEE-754 bit pattern. *)
Abbreviation float32 := Z.

(** ** Protobuf messages (onnx.pb.h) *)

(** [onnx::TensorProto::DataType] *)
Inductive DataType : Type :=
| UNDEFINED | FLOAT | UINT8 | INT8 | UINT16 | INT16 | INT32 | INT64
| STRING | BOOL | FLOAT16 | DOUBLE | UINT32 | UINT64 | COMPLEX64 | COMPLEX128.

#[global] Instance DataType_eq_dec : EqDecision DataType.
Proof. solve_decision. Defined.

Record TensorProto : Type := {
  tp_name : string;
  tp_dims : list Z;
  data_type : DataType;
  float_data : list float32;
  int64_data : list Z;
  raw_data : option (list Z);  (* bytes, each in [0, 256) *)
}.

(** An attribute is a tagged value keyed by name. *)
Inductive AttributeValue : Type :=
| AInt (i : Z)
| AFloat (f : float32)
| AString (s : string)
| AInts (ints : list Z)
| ATensor (t : TensorProto).

Record AttributeProto : Type := {
  attr_name : string;
  attr_value : AttributeValue;
}.

Record NodeProto : Type := {
  op_type : string;
  node_name : string;
  input : list string;
  output : list string;
  attribute : list AttributeProto;
}.

Record OperatorSetIdProto : Type := {
  domain : option string;
  version : Z;
}.

Inductive TypeProto : Type :=
| tensor_type (elem_type : DataType) (shape : list Z).

Record ValueInfoProto : Type := {
  vi_name : string;
  vi_type : TypeProto;
}.

Record GraphProto : Type := {
  node : list NodeProto;
  graph_input : list ValueInfoProto;
  initializer : list TensorProto;
  graph_output : list ValueInfoProto;
}.

Record ModelProto : Type := {
  ir_version : Z;
  opset_import : list OperatorSetIdProto;
  graph : GraphProto;
}.

(** [op.input(i)], [op.output(i)]: indexing a repeated field out of range
    is a usage error. *)
Definition repeated_at (l : list string) (i : nat) : Result string :=
  match l !! i with
  | Some x => Ok x
  | None => Err (Fail UsageError "repeated field index out of range")
  end.

(** ** Tensors (glow/Base/Tensor.h) *)

Inductive ElemKind : Type := FloatTy | IndexTy.

#[global] Instance ElemKind_eq_dec : EqDecision ElemKind.
Proof. solve_decision. Defined.

(** A tensor: element kind, shape, and the elements in row-major order
    (a float as its bit pattern, an index as a [size_t]). *)
Record Tensor : Type := {
  elemKind : ElemKind;
  t_dims : list Z;
  t_data : list Z;
}.

Definition product (dims : list Z) : Z := foldr Z.mul 1 dims.

(** Modelled from the spec: [Tensor::reset(kind, dims)] of the tensor
    collaborator, a newly allocated zero-filled buffer shaped per [dims]. *)
Definition Tensor_reset (k : ElemKind) (dims : list Z) : Tensor :=
  {| elemKind := k; t_dims := dims;
     t_data := replicate (Z.to_nat (to_size_t (product dims))) 0 |}.

Definition Tensor_size (T : Tensor) : nat := length (t_data T).

(** Modelled from the spec: [Handle::raw(i) = v] of the tensor collaborator,
    element-wise handle access; the index must be inside the buffer. *)
Definition Handle_raw_set (T : Tensor) (i : nat) (v : Z) : Result Tensor :=
  _ ← assert (bool_decide (i < Tensor_size T)%nat)
        ShapeInvariantViolation "Out of bounds";
  Ok {| elemKind := elemKind T; t_dims := t_dims T;
        t_data := <[i := v]> (t_data T) |}.

(** [size_t i = 0; for (auto f : data) TH.raw(i++) = f;] *)
Fixpoint copyElements (T : Tensor) (i : nat) (data : list Z) : Result Tensor :=
  match data with
  | [] => Ok T
  | f :: rest => T' ← Handle_raw_set T i f; copyElements T' (S i) rest
  end.

(** Little-endian value of a group of bytes. *)
Fixpoint le_value (bytes : list Z) : Z :=
  match bytes with
  | [] => 0
  | b :: rest => b + 256 * le_value rest
  end.

Fixpoint chunks (fuel w : nat) (bytes : list Z) : list (list Z) :=
  match fuel with
  | O => []
  | S fuel' => take w bytes :: chunks fuel' w (drop w bytes)
  end.

(** Modelled from the spec: [inStream.read(T->getRawDataPointer(), n * w)],
    the byte blob reinterpreted as a row-major array of exactly [n]
    elements of [w] bytes each; bytes the blob does not supply keep the
    zero of the fresh buffer. *)
Definition readRaw (T : Tensor) (w : nat) (blob : list Z) : Tensor :=
  let n := Tensor_size T in
  let bytes := take (n * w) blob ++ replicate (n * w - length blob) 0 in
  {| elemKind := elemKind T; t_dims := t_dims T;
     t_data := le_value <$> chunks n w bytes |}.

(** Loads tensor [T] from the input [in]. *)
Definition loadTensor (i : TensorProto) : Result Tensor :=
  let dim := to_size_t <$> tp_dims i in
  if decide (data_type i = FLOAT) then
    let T := Tensor_reset FloatTy dim in
    if bool_decide (0 < length (float_data i))%nat then
      copyElements T 0 (float_data i)
    else match raw_data i with
    | Some blob => Ok (readRaw T 4 blob)
    | None => Err (Fail UnsupportedTensorKind "Unsupported Tensor format.")
    end
  else if decide (data_type i = INT64) then
    let T := Tensor_reset IndexTy dim in
    if bool_decide (0 < length (int64_data i))%nat then
      copyElements T 0 (to_size_t <$> int64_data i)
    else match raw_data i with
    | Some blob => Ok (readRaw T 8 blob)
    | None => Err (Fail UnsupportedTensorKind "Unsupported Tensor format.")
    end
  else
    Err (Fail UnsupportedTensorKind "Only float and index tensors are supported").

(** ** Attribute dictionary *)

Abbreviation ArgumentDictionaryTy := (gmap string AttributeProto).

(** Translates the protocol buffer node [op] into a random access map. *)
Definition loadArgumentMap (op : NodeProto) : ArgumentDictionaryTy :=
  foldl (fun dict arg => <[attr_name arg := arg]> dict) ∅ (attribute op).

(** [dict.count(key)] as a condition. *)
Definition dict_count (dict : ArgumentDictionaryTy) (key : string) : bool :=
  bool_decide (is_Some (dict !! key)).

(** [dict[key]] and [dict.at(key)].  On a missing key [operator[]] yields a
    null attribute pointer, which every call site of the source hands at
    once to an accessor that dereferences it; the embedding fails at the
    lookup. *)
Definition dict_at (dict : ArgumentDictionaryTy) (key : string) : Result AttributeProto :=
  match dict !! key with
  | Some a => Ok a
  | None => Err (Fail UsageError ("missing attribute: " +:+ key))
  end.

(** Modelled from the spec: [loadInt], the typed accessor [asInt] of the
    protobuf loader (its header is not part of the importer source); it
    fails with a type mismatch if the stored tag differs. *)
Definition loadInt (arg : AttributeProto) : Result Z :=
  match attr_value arg with
  | AInt i => Ok i
  | _ => Err (Fail UnsupportedAttributeShape "Node has no Int value")
  end.

(** Modelled from the spec: [loadFloat], the typed accessor [asFloat];
    it fails with a type mismatch if the stored tag differs. *)
Definition loadFloat (arg : AttributeProto) : Result float32 :=
  match attr_value arg with
  | AFloat f => Ok f
  | _ => Err (Fail UnsupportedAttributeShape "Node has no float value")
  end.

(** Modelled from the spec: [loadStr], the typed accessor [asString];
    it fails with a type mismatch if the stored tag differs. *)
Definition loadStr (arg : AttributeProto) : Result string :=
  match attr_value arg with
  | AString s => Ok s
  | _ => Err (Fail UnsupportedAttributeShape "Node has no str value")
  end.

(** Modelled from the spec: [getShape], the typed accessor [asIntArray],
    read into a vector of [size_t]; it fails with a type mismatch if the
    stored tag differs. *)
Definition getShape (arg : AttributeProto) : Result (list Z) :=
  match attr_value arg with
  | AInts l => Ok (to_size_t <$> l)
  | _ => Err (Fail UnsupportedAttributeShape "Node has no ints value")
  end.

(** Modelled from the spec: [getConstantArrayHead] of the protobuf loader,
    the first entry of an int-array attribute. *)
Definition getConstantArrayHead (arg : AttributeProto) : Result Z :=
  match attr_value arg with
  | AInts (d :: _) => Ok d
  | AInts [] => Err (Fail UnsupportedAttributeShape "empty array attribute")
  | _ => Err (Fail UnsupportedAttributeShape "Node has no ints value")
  end.

Definition getPads (dict : ArgumentDictionaryTy) : Result (list Z) :=
  if dict_count dict "pads" then
    a ← dict_at dict "pads"; getShape a
  else if dict_count dict "auto_pad" then
    a ← dict_at dict "auto_pad";
    padStr ← loadStr a;
    if decide (padStr = "VALID") then
      (* Return default value 0 for pads. *)
      Ok [0; 0; 0; 0]
    else
      Err (Fail UnsupportedAttributeShape "only auto_pad==VALID is supported")
  else
    (* Return default value 0 for pads. *)
    Ok [0; 0; 0; 0].

(** ** The IR (glow/Graph)

    The IR builder is an external collaborator.  Its nodes are recorded as
    terms that keep the operands and attributes the importer passes in. *)

Definition TypeRef : Type := ElemKind * list Z.

#[warnings="-register-all"] Inductive Node : Type :=
| VariableNode (name : string) (payload : Tensor)
| TransposeNode (name : string) (inp : Node) (shuffle : list Z)
| ConvolutionNode (name : string) (inp filter bias : Node) (outTy : TypeRef)
    (kernel stride : Z) (pads : list Z) (group : Z)
| PoolMaxNode (name : string) (inp : Node) (kernel stride : Z) (pads : list Z)
| PoolAvgNode (name : string) (inp : Node) (kernel stride : Z) (pads : list Z)
| SqueezeNode (name : string) (inp : Node) (axes : list Z)
| ExpandDimsNode (name : string) (inp : Node) (axes : list Z)
| BatchNormalizationNode (name : string) (inp : Node)
    (scale bias mean var : Tensor) (channelIdx : Z) (epsilon : float32)
| ConcatNode (name : string) (inputs : list Node) (axis : Z)
| MatMulNode (name : string) (lhs rhs : Node)
| BroadcastNode (name : string) (inp : Node) (shape : list Z) (axis : Z)
| AddNode (name : string) (lhs rhs : Node)
| SaveNode (name : string) (inp : Node).

Definition NCHW2NHWC : list Z := [0; 2; 3; 1].
Definition NHWC2NCHW : list Z := [0; 3; 1; 2].

(** [dims[i]] on an [ArrayRef]; the index must be in range. *)
Definition dims_at (dims : list Z) (i : nat) : Result Z :=
  match dims !! i with
  | Some d => Ok d
  | None => Err (Fail ShapeInvariantViolation "Invalid index!")
  end.

(** Modelled from the spec: the layout transpose of a shape, dimension [i]
    of the result is dimension [shuffle[i]] of the operand. *)
Definition shuffleDims (dims shuffle : list Z) : list Z :=
  (fun k => default 0 (dims !! Z.to_nat k)) <$> shuffle.

(** Modelled from the spec: [calculateConvPoolOutputDims] (declared in the
    IR headers), the standard convolution-output-size formula from input
    size, kernel, stride and padding, pads being top/left/bottom/right, in
    [size_t] arithmetic. *)
Definition calculateConvPoolOutputDims (sx sy filterSize stride : Z)
    (pads : list Z) : Result (Z * Z) :=
  match pads with
  | [top; lft; bottom; rgt] =>
      _ ← assert (negb (stride =? 0)) ShapeInvariantViolation "division by zero";
      let outsx := to_size_t (to_size_t (sx + top + bottom - filterSize) / stride + 1) in
      let outsy := to_size_t (to_size_t (sy + lft + rgt - filterSize) / stride + 1) in
      Ok (outsx, outsy)
  | _ => Err (Fail ShapeInvariantViolation "Invalid padding size")
  end.

(** [ShapeNHWC(dims)] *)
Record ShapeNHWC : Type :=
  { shape_n : Z; shape_h : Z; shape_w : Z; shape_c : Z }.

Definition mkShapeNHWC (dims : list Z) : Result ShapeNHWC :=
  match dims with
  | [n; h; w; c] => Ok {| shape_n := n; shape_h := h; shape_w := w; shape_c := c |}
  | _ => Err (Fail ShapeInvariantViolation "Invalid shape")
  end.

Definition poolDims (dims : list Z) (kernel stride : Z) (pads : list Z) : list Z :=
  match mkShapeNHWC dims with
  | Ok idim =>
      match calculateConvPoolOutputDims (shape_h idim) (shape_w idim)
              kernel stride pads with
      | Ok (oh, ow) => [shape_n idim; oh; ow; shape_c idim]
      | Err _ => []
      end
  | Err _ => []
  end.

Fixpoint dropAxes (i : Z) (dims axes : list Z) : list Z :=
  match dims with
  | [] => []
  | d :: rest =>
      if bool_decide (i ∈ axes) then dropAxes (i + 1) rest axes
      else d :: dropAxes (i + 1) rest axes
  end.

Fixpoint addAxes (fuel : nat) (i : Z) (dims axes : list Z) : list Z :=
  match fuel with
  | O => dims
  | S fuel' =>
      if bool_decide (i ∈ axes) then 1 :: addAxes fuel' (i + 1) dims axes
      else match dims with
           | [] => []
           | d :: rest => d :: addAxes fuel' (i + 1) rest axes
           end
  end.

Definition concatDims (shapes : list (list Z)) (axis : Z) : list Z :=
  match shapes with
  | [] => []
  | first :: _ =>
      <[Z.to_nat axis :=
          foldr Z.add 0 ((fun s => default 0 (s !! Z.to_nat axis)) <$> shapes)]> first
  end.

(** Modelled from the spec: the shape of a node's result, [N->dims(0)], as
    the IR collaborator declares it: a variable has its tensor's shape, a
    transpose the shuffled shape, a convolution its declared output type,
    a pool the convolution-output-size formula applied to its input. *)
Fixpoint Node_dims (N : Node) : list Z :=
  match N with
  | VariableNode _ T => t_dims T
  | TransposeNode _ i sh => shuffleDims (Node_dims i) sh
  | ConvolutionNode _ _ _ _ ty _ _ _ _ => snd ty
  | PoolMaxNode _ i k s p => poolDims (Node_dims i) k s p
  | PoolAvgNode _ i k s p => poolDims (Node_dims i) k s p
  | SqueezeNode _ i axes => dropAxes 0 (Node_dims i) axes
  | ExpandDimsNode _ i axes =>
      addAxes (length (Node_dims i) + length axes) 0 (Node_dims i) axes
  | BatchNormalizationNode _ i _ _ _ _ _ _ => Node_dims i
  | ConcatNode _ ins axis => concatDims (map Node_dims ins) axis
  | MatMulNode _ a b =>
      [default 0 (Node_dims a !! 0%nat); default 0 (Node_dims b !! 1%nat)]
  | BroadcastNode _ _ shape _ => shape
  | AddNode _ a _ => Node_dims a
  | SaveNode _ i => Node_dims i
  end.

(** All indices of a shape, in row-major order. *)
Fixpoint indices (dims : list nat) : list (list nat) :=
  match dims with
  | [] => [[]]
  | d :: ds => i ← seq 0 d; (cons i) <$> indices ds
  end.

(** The row-major position of an index. *)
Definition offset (dims idx : list nat) : nat :=
  foldl (fun acc di => (acc * di.1 + di.2)%nat) 0%nat (zip dims idx).

(** The operand index [j] read for the result index [idx]:
    [j[shuffle[i]] = idx[i]]. *)
Definition unshuffle (shuffle : list Z) (idx : list nat) : list nat :=
  foldl (fun j kv => <[Z.to_nat kv.1 := kv.2]> j)
        (replicate (length shuffle) 0%nat) (zip shuffle idx).

(** Modelled from the spec: [Tensor::transpose(dest, shuffle)] of the
    tensor collaborator.  The shape is shuffled and the element at index
    [j'] of the result is the element of the operand at the index [j] with
    [j[shuffle[i]] = j'[i]]. *)
Definition Tensor_transpose (T : Tensor) (shuffle : list Z) : Result Tensor :=
  _ ← assert (bool_decide (length (t_dims T) = length shuffle))
        ShapeInvariantViolation "Invalid shuffle mask";
  let newDims := shuffleDims (t_dims T) shuffle in
  let src := Z.to_nat <$> t_dims T in
  Ok {| elemKind := elemKind T; t_dims := newDims;
        t_data := (fun j => default 0 (t_data T !! offset src (unshuffle shuffle j)))
                    <$> indices (Z.to_nat <$> newDims) |}.

(** ** The loader object *)

Record Loader : Type := {
  G_ : list Node;                         (* nodes of the function being built *)
  variables_ : list Node;                 (* variables of the parent module *)
  tensors_ : gmap string Tensor;          (* the tensor table *)
  nodeByName_ : gmap string Node;         (* values bound by earlier nodes *)
  outputsByName_ : gmap string Node;      (* terminal save bindings *)
  irVersion_ : Z;
  opsetVersion_ : Z;
  diagnostics_ : list (string * NodeProto) (* what [unexpectedNodeError] reported *)
}.

Definition set_G (f : list Node -> list Node) (s : Loader) : Loader :=
  {| G_ := f (G_ s); variables_ := variables_ s; tensors_ := tensors_ s;
     nodeByName_ := nodeByName_ s; outputsByName_ := outputsByName_ s;
     irVersion_ := irVersion_ s; opsetVersion_ := opsetVersion_ s;
     diagnostics_ := diagnostics_ s |}.

Definition set_variables (f : list Node -> list Node) (s : Loader) : Loader :=
  {| G_ := G_ s; variables_ := f (variables_ s); tensors_ := tensors_ s;
     nodeByName_ := nodeByName_ s; outputsByName_ := outputsByName_ s;
     irVersion_ := irVersion_ s; opsetVersion_ := opsetVersion_ s;
     diagnostics_ := diagnostics_ s |}.

Definition set_tensors (f : gmap string Tensor -> gmap string Tensor)
    (s : Loader) : Loader :=
  {| G_ := G_ s; variables_ := variables_ s; tensors_ := f (tensors_ s);
     nodeByName_ := nodeByName_ s; outputsByName_ := outputsByName_ s;
     irVersion_ := irVersion_ s; opsetVersion_ := opsetVersion_ s;
     diagnostics_ := diagnostics_ s |}.

Definition set_nodeByName (f : gmap string Node -> gmap string Node)
    (s : Loader) : Loader :=
  {| G_ := G_ s; variables_ := variables_ s; tensors_ := tensors_ s;
     nodeByName_ := f (nodeByName_ s); outputsByName_ := outputsByName_ s;
     irVersion_ := irVersion_ s; opsetVersion_ := opsetVersion_ s;
     diagnostics_ := diagnostics_ s |}.

Definition set_outputsByName (f : gmap string Node -> gmap string Node)
    (s : Loader) : Loader :=
  {| G_ := G_ s; variables_ := variables_ s; tensors_ := tensors_ s;
     nodeByName_ := nodeByName_ s; outputsByName_ := f (outputsByName_ s);
     irVersion_ := irVersion_ s; opsetVersion_ := opsetVersion_ s;
     diagnostics_ := diagnostics_ s |}.

Definition set_versions (ir opset : Z) (s : Loader) : Loader :=
  {| G_ := G_ s; variables_ := variables_ s; tensors_ := tensors_ s;
     nodeByName_ := nodeByName_ s; outputsByName_ := outputsByName_ s;
     irVersion_ := ir; opsetVersion_ := opset;
     diagnostics_ := diagnostics_ s |}.

Definition set_diagnostics
    (f : list (string * NodeProto) -> list (string * NodeProto))
    (s : Loader) : Loader :=
  {| G_ := G_ s; variables_ := variables_ s; tensors_ := tensors_ s;
     nodeByName_ := nodeByName_ s; outputsByName_ := outputsByName_ s;
     irVersion_ := irVersion_ s; opsetVersion_ := opsetVersion_ s;
     diagnostics_ := f (diagnostics_ s) |}.

(** Member functions run in a state-and-failure monad over the loader. *)
Definition LM (A : Type) : Type := Loader -> Result (A * Loader).

#[global] Instance LM_ret : MRet LM := fun A a s => Ok (a, s).
#[global] Instance LM_bind : MBind LM := fun A B f m s =>
  match m s with
  | Ok (a, s') => f a s'
  | Err e => Err e
  end.

Definition liftR {A} (r : Result A) : LM A := fun s =>
  match r with
  | Ok a => Ok (a, s)
  | Err e => Err e
  end.

Definition gets {A} (f : Loader -> A) : LM A := fun s => Ok (f s, s).
Definition modify (f : Loader -> Loader) : LM unit := fun s => Ok (tt, f s).

(** ** Collaborators outside the importer source

    What [ONNX.cpp] calls but does not define and the importer's design
    leaves to its environment: the operators its parent class
    [CommonOperatorLoader] lowers, the naming of a node, the protobuf
    decoder and the file system. *)
Class Collaborators : Type := {
  (** [tryLoadCommonOperator(typeName, op, dict)]: true if the parent class
      recognised and lowered the node. *)
  tryLoadCommonOperator : string -> NodeProto -> ArgumentDictionaryTy -> LM bool;
  (** [loadOperatorName(op)]: the name given to the IR nodes of [op]. *)
  loadOperatorName : NodeProto -> string;
  (** [MP.ParseFromCodedStream]: the decoded model and whether decoding
      succeeded (within [MAX_PROTO_SIZE]). *)
  ParseFromCodedStream : list Z -> bool * ModelProto;
  (** [std::ifstream ff(filename)]: the bytes of a readable file. *)
  openFile : string -> option (list Z);
}.

(** ** Protobuf loader base class *)

(** Modelled from the spec: [getTensorByName], the tensor the table holds
    under a name; a name without an entry is a failure. *)
Definition getTensorByName (name : string) : LM Tensor := fun s =>
  match tensors_ s !! name with
  | Some T => Ok (T, s)
  | None => Err (Fail ShapeInvariantViolation
                   "There is no tensor registered with this name.")
  end.

(** Modelled from the spec: [getNodeByName], the IR value already bound
    under a name; an unresolved name is a failure. *)
Definition getNodeByName (name : string) : LM Node := fun s =>
  match nodeByName_ s !! name with
  | Some N => Ok (N, s)
  | None => Err (Fail ShapeInvariantViolation
                   "Could not find a node with this name.")
  end.

(** Modelled from the spec: [G_.getParent()->createVariable(name, T)], the
    IR builder's create-parameter(name, tensor); the variable joins the
    parent module. *)
Definition createVariable (name : string) (T : Tensor) : LM Node := fun s =>
  let V := VariableNode name T in
  Ok (V, set_variables (fun vs => vs ++ [V]) s).

(** Modelled from the spec: [G_.create...(...)], the IR builder's
    create-op(kind, inputs, attributes); the new node joins the function. *)
Definition addNode (N : Node) : LM Node := fun s =>
  Ok (N, set_G (fun g => g ++ [N]) s).

(** Modelled from the spec: [getOrCreateVariableByName], a value bound by
    an earlier node under the name, else a fresh IR parameter node created
    from the table's tensor and bound under the name. *)
Definition getOrCreateVariableByName (name : string) : LM Node := fun s =>
  match nodeByName_ s !! name with
  | Some N => Ok (N, s)
  | None =>
      (T ← getTensorByName name;
       V ← createVariable name T;
       _ ← modify (set_nodeByName (insert name V));
       mret V) s
  end.

(** Modelled from the spec: [addNodeAsOutput], the node is bound to every
    declared output of [op]. *)
Definition addNodeAsOutput (op : NodeProto) (R : Node) : LM unit :=
  modify (set_nodeByName (fun m => foldl (fun m o => <[o := R]> m) m (output op))).

(** Modelled from the spec: the base-class constructor; pre-bound entries
    are inserted first, into an otherwise empty loader over [F]. *)
Definition ProtobufLoader (tensorNames : list string) (tensors : list Tensor)
    (F : list Node) : Result Loader :=
  _ ← assert (bool_decide (length tensorNames = length tensors))
        UsageError "Invalid initialization list";
  Ok {| G_ := F; variables_ := []; 
        tensors_ := foldl (fun m nt => <[nt.1 := nt.2]> m) ∅ (zip tensorNames tensors);
        nodeByName_ := ∅; outputsByName_ := ∅;
        irVersion_ := 0; opsetVersion_ := 0; diagnostics_ := [] |}.

(** Modelled from the spec: [unexpectedNodeError(op, message)] reports the
    message together with the node (its operator type and instance name). *)
Definition unexpectedNodeError (op : NodeProto) (message : string) : LM unit :=
  modify (set_diagnostics (fun d => d ++ [(message, op)])).

(** ** Shared policies and version check *)

Definition getBroadcast (dict : ArgumentDictionaryTy) : LM bool :=
  opset ← gets opsetVersion_;
  if 6 <? opset then mret true
  else if dict_count dict "broadcast" then
    a ← liftR (dict_at dict "broadcast");
    i ← liftR (loadInt a);
    mret (i =? 1)
  else mret false.

(** The first opset import without a namespace, as the [for ... break]
    loop of [setVersion] finds it. *)
Definition unnamespaced (imp : OperatorSetIdProto) : Prop :=
  domain imp = None \/ domain imp = Some "".

#[global] Instance unnamespaced_dec imp : Decision (unnamespaced imp).
Proof. unfold unnamespaced. apply _. Defined.

Fixpoint firstDefaultOpset (imports : list OperatorSetIdProto) (opset : Z) : Z :=
  match imports with
  | [] => opset
  | imp :: rest =>
      if bool_decide (unnamespaced imp)
      then version imp
      else firstDefaultOpset rest opset
  end.

Definition setVersion (MP : ModelProto) : LM unit :=
  let ir := ir_version MP in
  _ ← modify (set_versions ir 0);
  _ ← liftR (assert (3 <=? ir) VersionError
        "This ONNX model with ir_version < 3 is too old to be supported.");
  let opset := firstDefaultOpset (opset_import MP) 0 in
  _ ← modify (set_versions ir opset);
  liftR (assert (0 <? opset) VersionError
        "The opset of this ONNX model is not supported.").

(** [loadProto(net, iStream)] *)
Definition loadProto_stream `{Collaborators} (iStream : list Z)
    : LM (bool * GraphProto) :=
  let '(parseNet, MP) := ParseFromCodedStream iStream in
  let net := graph MP in
  _ ← setVersion MP;
  mret (parseNet, net).

(** [loadProto(net, onnxModel, onnxModelSize)] *)
Definition loadProto_array `{Collaborators} (onnxModel : list Z)
    : LM (bool * GraphProto) :=
  loadProto_stream onnxModel.

(** [loadProto(net, filename)] *)
Definition loadProto_file `{Collaborators} (filename : string)
    : LM (bool * GraphProto) :=
  match openFile filename with
  | None => liftR (Err (Fail FormatError "Can't find the model or network files."))
  | Some ff => loadProto_stream ff
  end.

(** ** Lowering of one node *)

(** [dict.count("strides") ? getConstantArrayHead(dict["strides"]) : 1],
    stored in an [int]. *)
Definition loadStride (dict : ArgumentDictionaryTy) : Result Z :=
  if dict_count dict "strides" then
    a ← dict_at dict "strides"; v ← getConstantArrayHead a; Ok (to_int v)
  else Ok 1.

(** The zero-filled bias [Tensor biasTensor(ElemKind::FloatTy, {depth})]. *)
Definition zeroBias (depth : Z) : Tensor := Tensor_reset FloatTy [depth].

Definition loadConstant (op : NodeProto) (dict : ArgumentDictionaryTy) : LM bool :=
  name ← liftR (repeated_at (output op) 0);
  (* If the tensor is pre-populated by the user of this class then we don't
     need to allocate a new tensor. *)
  present ← gets (fun s => bool_decide (is_Some (tensors_ s !! name)));
  if (present : bool) then mret true
  else
    a ← liftR (dict_at dict "value");
    match attr_value a with
    | ATensor t =>
        T ← liftR (loadTensor t);
        _ ← modify (set_tensors (insert name T));
        mret true
    | _ => liftR (Err (Fail UnsupportedAttributeShape
                         "Only Tensor type constants are supported."))
    end.

(** The bias field: zero-filled of length [depth], replaced by a copy of
    the serialized bias vector when a third input names a tensor. *)
Definition loadBias (op : NodeProto) (depth : Z) : LM Tensor :=
  if bool_decide (2 < length (input op))%nat then
    biasTensorName ← liftR (repeated_at (input op) 2);
    present ← gets (fun s => bool_decide (is_Some (tensors_ s !! biasTensorName)));
    if (present : bool) then getTensorByName biasTensorName
    else mret (zeroBias depth)
  else mret (zeroBias depth).

Definition loadConv (op : NodeProto) (dict : ArgumentDictionaryTy)
    (opName : string) : LM bool :=
  (* Load the inputs: *)
  stride ← liftR (loadStride dict);
  group ← liftR (if dict_count dict "group"
                 then a ← dict_at dict "group"; g ← loadInt a; Ok (to_unsigned g)
                 else Ok 1);
  (* Pads : {pad_top, pad_left, pad_bottom, pad_right} *)
  pads ← liftR (getPads dict);
  in0 ← liftR (repeated_at (input op) 0);
  inN ← getOrCreateVariableByName in0;
  in1 ← liftR (repeated_at (input op) 1);
  w ← getTensorByName in1;
  (* Transpose the weights to the right format. *)
  wtag ← liftR (Tensor_transpose w NCHW2NHWC);
  (* We take the C, which is the number of filters. *)
  depth ← liftR (dims_at (t_dims wtag) 0);
  (* Construct the Filter field. *)
  filter ← createVariable "conv.filter" wtag;
  kernel ← liftR (if dict_count dict "kernel_shape"
                  then a ← dict_at dict "kernel_shape";
                       k ← getConstantArrayHead a; Ok (to_unsigned k)
                  else d1 ← dims_at (Node_dims filter) 1;
                       d2 ← dims_at (Node_dims filter) 2;
                       _ ← assert (d1 =? d2) ShapeInvariantViolation
                             "Only square kernels are supported";
                       Ok (to_unsigned d1));
  (* Construct the Bias field; check if we have a serialized bias vector. *)
  biasTensor ← loadBias op depth;
  bias ← createVariable "conv.bias" biasTensor;
  (* ONNX passes the input as NCHW, and we expect the input to be NHWC. *)
  tr ← addNode (TransposeNode opName inN NCHW2NHWC);
  (* Calculate the size and allocate the output buffer. *)
  idim ← liftR (mkShapeNHWC (Node_dims tr));
  outSz ← liftR (calculateConvPoolOutputDims (shape_h idim) (shape_w idim)
                   kernel (to_size_t stride) pads);
  let outDims := [shape_n idim; outSz.1; outSz.2; depth] in
  let outTy : TypeRef := (FloatTy, outDims) in
  node ← addNode (ConvolutionNode opName tr filter bias outTy kernel stride
                    pads group);
  (* Transpose the output back. *)
  N ← addNode (TransposeNode opName node NHWC2NCHW);
  _ ← addNodeAsOutput op N;
  mret true.

Definition loadPool (typeName : string) (op : NodeProto)
    (dict : ArgumentDictionaryTy) (opName : string) : LM bool :=
  (* Load the inputs: *)
  in0 ← liftR (repeated_at (input op) 0);
  inN ← getOrCreateVariableByName in0;
  stride ← liftR (loadStride dict);
  kernel0 ← liftR (a ← dict_at dict "kernel_shape";
                   k ← getConstantArrayHead a; Ok (to_size_t k));
  pads ← liftR (getPads dict);
  tr ← addNode (TransposeNode opName inN NCHW2NHWC);
  (* If 'global_pooling' is set then the operation will pool over the size
     of the input by doing: kernel = height/width. *)
  kernel ← liftR (if dict_count dict "global_pooling"
                  then dims_at (Node_dims inN) 3
                  else Ok kernel0);
  node ← (if decide (typeName = "MaxPool")
          then addNode (PoolMaxNode opName tr kernel stride pads)
          else addNode (PoolAvgNode opName tr kernel stride pads));
  N ← addNode (TransposeNode opName node NHWC2NCHW);
  _ ← addNodeAsOutput op N;
  mret true.

Definition loadGlobalAveragePool (op : NodeProto) (dict : ArgumentDictionaryTy)
    (opName : string) : LM bool :=
  in0 ← liftR (repeated_at (input op) 0);
  inN ← getOrCreateVariableByName in0;
  stride ← liftR (loadStride dict);
  d2 ← liftR (dims_at (Node_dims inN) 2);
  d3 ← liftR (dims_at (Node_dims inN) 3);
  _ ← liftR (assert (d2 =? d3) ShapeInvariantViolation
               "For the image, height == weight is required");
  let kernel := d2 in
  pads ← liftR (getPads dict);
  tr ← addNode (TransposeNode opName inN NCHW2NHWC);
  node ← addNode (PoolAvgNode opName tr kernel stride pads);
  N ← addNode (TransposeNode opName node NHWC2NCHW);
  _ ← addNodeAsOutput op N;
  mret true.

Definition loadSqueeze (expand : bool) (op : NodeProto)
    (dict : ArgumentDictionaryTy) (opName : string) : LM bool :=
  in0 ← liftR (repeated_at (input op) 0);
  inN ← getOrCreateVariableByName in0;
  axes ← liftR (a ← dict_at dict "axes"; getShape a);
  node ← addNode (if expand then ExpandDimsNode opName inN axes
                  else SqueezeNode opName inN axes);
  _ ← addNodeAsOutput op node;
  mret true.

Definition loadDropout (op : NodeProto) : LM bool :=
  in0 ← liftR (repeated_at (input op) 0);
  inN ← getOrCreateVariableByName in0;
  (* Save the identity operation: *)
  _ ← addNodeAsOutput op inN;
  mret true.

(** [1e-5f] *)
Definition default_epsilon : float32 := 925353388.

Definition loadBatchNormalization (op : NodeProto) (dict : ArgumentDictionaryTy)
    (opName : string) : LM bool :=
  in0 ← liftR (repeated_at (input op) 0);
  inN ← getOrCreateVariableByName in0;
  scale ← (nm ← liftR (repeated_at (input op) 1); getTensorByName nm);
  bias ← (nm ← liftR (repeated_at (input op) 2); getTensorByName nm);
  mean ← (nm ← liftR (repeated_at (input op) 3); getTensorByName nm);
  var ← (nm ← liftR (repeated_at (input op) 4); getTensorByName nm);
  epsilon ← liftR (match dict !! "epsilon" with
                   | Some a => loadFloat a
                   | None => Ok default_epsilon
                   end);
  node ← addNode (BatchNormalizationNode opName inN scale bias mean var 1 epsilon);
  _ ← addNodeAsOutput op node;
  mret true.

Fixpoint loadInputsOf (names : list string) : LM (list Node) :=
  match names with
  | [] => mret []
  | nm :: rest =>
      N ← getOrCreateVariableByName nm;
      Ns ← loadInputsOf rest;
      mret (N :: Ns)
  end.

Definition loadConcat (op : NodeProto) (dict : ArgumentDictionaryTy)
    (opName : string) : LM bool :=
  inputs ← loadInputsOf (input op);
  axis ← liftR (a ← dict_at dict "axis"; loadInt a);
  node ← addNode (ConcatNode opName inputs axis);
  _ ← addNodeAsOutput op node;
  mret true.

(** [dict.count(key) && loadInt(dict[key])] *)
Definition loadFlag (dict : ArgumentDictionaryTy) (key : string) : Result bool :=
  if dict_count dict key then
    a ← dict_at dict key; i ← loadInt a; Ok (negb (i =? 0))
  else Ok false.

Definition loadGemm (op : NodeProto) (dict : ArgumentDictionaryTy)
    (opName : string) : LM bool :=
  A ← (nm ← liftR (repeated_at (input op) 0); getOrCreateVariableByName nm);
  B ← (nm ← liftR (repeated_at (input op) 1); getOrCreateVariableByName nm);
  C ← (nm ← liftR (repeated_at (input op) 2); getOrCreateVariableByName nm);
  broadcastC ← getBroadcast dict;
  transA ← liftR (loadFlag dict "transA");
  transB ← liftR (loadFlag dict "transB");
  A ← (if (transA : bool) then addNode (TransposeNode opName A [1; 0]) else mret A);
  B ← (if (transB : bool) then addNode (TransposeNode opName B [1; 0]) else mret B);
  mul ← addNode (MatMulNode opName A B);
  C ← (if (broadcastC : bool) then
         let axis := to_int (Z.of_nat (length (Node_dims mul))
                             - Z.of_nat (length (Node_dims C))) in
         addNode (BroadcastNode opName C (Node_dims mul) axis)
       else mret C);
  node ← addNode (AddNode opName mul C);
  _ ← addNodeAsOutput op node;
  mret true.

(** Modelled from the spec: [loadTranspose(op, dict, "perm")] of the parent
    class, permutes the input dimensions per a required permutation
    attribute. *)
Definition loadTranspose (op : NodeProto) (dict : ArgumentDictionaryTy)
    (permArgName : string) (opName : string) : LM unit :=
  in0 ← liftR (repeated_at (input op) 0);
  inN ← getOrCreateVariableByName in0;
  perm ← liftR (a ← dict_at dict permArgName; getShape a);
  T ← addNode (TransposeNode opName inN perm);
  addNodeAsOutput op T.

Definition loadOperator `{Collaborators} (op : NodeProto) : LM bool :=
  let dict := loadArgumentMap op in
  let typeName := op_type op in
  (* Check if operator is supported in parent class, CommonOperatorLoader. *)
  common ← tryLoadCommonOperator typeName op dict;
  if (common : bool) then
    (* If operator is supported, CommonOperatorLoader loaded it to the Graph. *)
    mret true
  else
    let opName := loadOperatorName op in
    (* Load tensors with values: *)
    if decide (typeName = "Constant") then loadConstant op dict
    else if decide (typeName = "Conv") then loadConv op dict opName
    else if decide (typeName = "MaxPool" \/ typeName = "AveragePool")
      then loadPool typeName op dict opName
    else if decide (typeName = "GlobalAveragePool")
      then loadGlobalAveragePool op dict opName
    else if decide (typeName = "Squeeze") then loadSqueeze false op dict opName
    else if decide (typeName = "Unsqueeze") then loadSqueeze true op dict opName
    else if decide (typeName = "Dropout") then loadDropout op
    else if decide (typeName = "BatchNormalization")
      then loadBatchNormalization op dict opName
    else if decide (typeName = "Concat") then loadConcat op dict opName
    else if decide (typeName = "Gemm") then loadGemm op dict opName
    else if decide (typeName = "Transpose")
      then _ ← loadTranspose op dict "perm" opName; mret true
    else mret false.

(** The operator type names [loadOperator] itself dispatches on. *)
Definition importer_operators : list string :=
  ["Constant"; "Conv"; "MaxPool"; "AveragePool"; "GlobalAveragePool";
   "Squeeze"; "Unsqueeze"; "Dropout"; "BatchNormalization"; "Concat";
   "Gemm"; "Transpose"].

(** ** Seeding the tensor table, binding outputs, the load pipelines *)

(** Creates tensor [T] from the input [in]; there is no data associated
    with the tensor. *)
Definition loadShape (i : TypeProto) : Result Tensor :=
  match i with
  | tensor_type elem_type shape =>
      let dim := to_size_t <$> shape in
      if decide (elem_type = FLOAT) then Ok (Tensor_reset FloatTy dim)
      else if decide (elem_type = INT64) then Ok (Tensor_reset IndexTy dim)
      else Err (Fail UnsupportedTensorKind
                  "Only float and index tensors are supported")
  end.

Fixpoint loadInputs_loop (inputs : list ValueInfoProto) : LM unit :=
  match inputs with
  | [] => mret tt
  | i :: rest =>
      T ← liftR (loadShape (vi_type i));
      _ ← modify (set_tensors (insert (vi_name i) T));
      loadInputs_loop rest
  end.

Definition loadInputs (net : GraphProto) : LM unit :=
  loadInputs_loop (graph_input net).

Fixpoint loadInitializers_loop (inits : list TensorProto) : LM unit :=
  match inits with
  | [] => mret tt
  | i :: rest =>
      T ← liftR (loadTensor i);
      _ ← modify (set_tensors (insert (tp_name i) T));
      loadInitializers_loop rest
  end.

Definition loadInitializers (net : GraphProto) : LM unit :=
  (* Load the network initializaers: *)
  loadInitializers_loop (initializer net).

Fixpoint setOutputNodes_loop (outputs : list ValueInfoProto) : LM unit :=
  match outputs with
  | [] => mret tt
  | o :: rest =>
      let outputName := vi_name o in
      r ← getNodeByName outputName;
      save ← addNode (SaveNode ("save_" +:+ outputName) r);
      _ ← modify (set_outputsByName (insert outputName save));
      setOutputNodes_loop rest
  end.

Definition setOutputNodes (net : GraphProto) : LM unit :=
  _ ← liftR (assert (bool_decide (0 < length (graph_output net))%nat)
               ShapeInvariantViolation
               "Network needs external outputs defined.");
  setOutputNodes_loop (graph_output net).

Fixpoint loadNetwork_loop `{Collaborators} (nodes : list NodeProto) : LM bool :=
  match nodes with
  | [] => mret true
  | op :: rest =>
      ok ← loadOperator op;
      if (ok : bool) then loadNetwork_loop rest
      else
        _ ← unexpectedNodeError op "Unsupported operator.";
        mret false
  end.

Definition loadNetwork `{Collaborators} (net : GraphProto) : LM bool :=
  (* Load the network operators: *)
  loadNetwork_loop (node net).

(** The steps of [ONNXModelLoader::parse] on the fresh loader. *)
Definition parse_steps `{Collaborators} (onnxModel : list Z) : LM bool :=
  '(parsed, modelDef) ← loadProto_array onnxModel;
  if (parsed : bool) then
    _ ← loadInputs modelDef;
    loadNetwork modelDef
  else mret false.

(** [ONNXModelLoader::parse]: [None] is the null loader. *)
Definition parse `{Collaborators} (onnxModel : list Z) (F : list Node)
    : Result (option Loader) :=
  onnxLoader ← ProtobufLoader [] [] F;
  match parse_steps onnxModel onnxLoader with
  | Ok (true, l) => Ok (Some l)
  | Ok (false, _) => Ok None
  | Err e => Err e
  end.

(** The body of the constructor [ONNXModelLoader(modelDescFilename,
    tensorNames, tensors, F)].  Its [GLOW_ASSERT("Cannot load the
    network.")] tests a string literal and so never fails. *)
Definition ONNXModelLoader_steps `{Collaborators} (modelDescFilename : string)
    : LM unit :=
  '(_, modelDef) ← loadProto_file modelDescFilename;
  _ ← loadInitializers modelDef;
  ok ← loadNetwork modelDef;
  if (ok : bool) then setOutputNodes modelDef else mret tt.

Definition ONNXModelLoader `{Collaborators} (modelDescFilename : string)
    (tensorNames : list string) (tensors : list Tensor) (F : list Node)
    : Result Loader :=
  l ← ProtobufLoader tensorNames tensors F;
  match ONNXModelLoader_steps modelDescFilename l with
  | Ok (_, l') => Ok l'
  | Err e => Err e
  end.

(** A computation that binds no graph output. *)
Definition keeps_outputs {A} (m : LM A) : Prop :=
  forall s a s', m s = Ok (a, s') -> outputsByName_ s' = outputsByName_ s.

(** A computation every successful run of which relates the loader before
    to the loader after by [R]. *)
Definition respects {A} (R : Loader -> Loader -> Prop) (m : LM A) : Prop :=
  forall s a s', m s = Ok (a, s') -> R s s'.

(** Every entry of the tensor table is still there, unchanged. *)
Definition tensors_kept (s s' : Loader) : Prop :=
  forall k T, tensors_ s !! k = Some T -> tensors_ s' !! k = Some T.

(** The function and the module only gained nodes, at the end. *)
Definition graph_extended (s s' : Loader) : Prop :=
  G_ s `prefix_of` G_ s' /\ variables_ s `prefix_of` variables_ s'.

(** * Concrete inputs

    Records, nodes and loader states on which the properties below are
    evaluated. *)

(** The constant of the source's own example: [dims: 8], eight floats. *)
Definition Parameter6_values : list float32 :=
  [3190123179; 3202228149; 1035710071; 3163164073;
   3179621525; 3188123211; 1017594549; 3187148964].

Definition Parameter6 : TensorProto :=
  {| tp_name := "Parameter6"; tp_dims := [8]; data_type := FLOAT;
     float_data := Parameter6_values; int64_data := []; raw_data := None |}.

(** A float record declaring two elements and carrying one. *)
Definition short_record : TensorProto :=
  {| tp_name := "short"; tp_dims := [2]; data_type := FLOAT;
     float_data := [1065353216]; int64_data := []; raw_data := None |}.

(** A record of an element kind the importer does not load. *)
Definition double_record : TensorProto :=
  {| tp_name := "d"; tp_dims := [1]; data_type := DOUBLE;
     float_data := []; int64_data := []; raw_data := Some [0; 0; 0; 0; 0; 0; 0; 0] |}.


(** Attribute dictionaries. *)
Definition attr (name : string) (v : AttributeValue) : AttributeProto :=
  {| attr_name := name; attr_value := v |}.

Definition dict_of (attrs : list AttributeProto) : ArgumentDictionaryTy :=
  loadArgumentMap {| op_type := ""; node_name := ""; input := []; output := [];
                     attribute := attrs |}.

Definition same_upper_dict : ArgumentDictionaryTy :=
  dict_of [attr "auto_pad" (AString "SAME_UPPER")].

Definition broadcast_dict : ArgumentDictionaryTy :=
  dict_of [attr "broadcast" (AInt 1)].

(** A fresh loader, and one whose resolved opset version is 6. *)
Definition empty_loader : Loader :=
  {| G_ := []; variables_ := []; tensors_ := ∅; nodeByName_ := ∅;
     outputsByName_ := ∅; irVersion_ := 0; opsetVersion_ := 0;
     diagnostics_ := [] |}.

Definition opset6_loader : Loader := set_versions 3 6 empty_loader.

(** A model of IR version 3 importing the ML operator set and, without a
    namespace, operator set 7. *)
Definition empty_graph : GraphProto :=
  {| node := []; graph_input := []; initializer := []; graph_output := [] |}.

Definition opset7_model : ModelProto :=
  {| ir_version := 3;
     opset_import := [ {| domain := Some "ai.onnx.ml"; version := 1 |};
                       {| domain := None; version := 7 |} ];
     graph := empty_graph |}.

(** Collaborators for the examples: a parent class that recognises no
    operator, nodes named by their instance name or else their first
    output, a decoder that yields the model [MP] for every stream, and a
    file system holding the single file ["model.onnx"]. *)
Definition example_operator_name (op : NodeProto) : string :=
  if decide (node_name op = "") then default "" (output op !! 0%nat)
  else node_name op.

Definition example_collaborators (MP : ModelProto) : Collaborators :=
  {| tryLoadCommonOperator := fun _ _ _ => mret false;
     loadOperatorName := example_operator_name;
     ParseFromCodedStream := fun _ => (true, MP);
     openFile := fun name => if decide (name = "model.onnx") then Some [] else None |}.

(** A caller's tensor pre-bound under ["X"], and a model whose initializer
    list defines ["X"] as well; a Dropout node passes ["X"] on to the
    graph output ["Y"]. *)
Definition caller_X : Tensor :=
  {| elemKind := FloatTy; t_dims := [2]; t_data := [0; 0] |}.

Definition initializer_X : TensorProto :=
  {| tp_name := "X"; tp_dims := [2]; data_type := FLOAT;
     float_data := [1065353216; 1073741824]; int64_data := [];
     raw_data := None |}.

Definition float_value (name : string) : ValueInfoProto :=
  {| vi_name := name; vi_type := tensor_type FLOAT [2] |}.

Definition dropout_node : NodeProto :=
  {| op_type := "Dropout"; node_name := "drop"; input := ["X"];
     output := ["Y"]; attribute := [] |}.

Definition initializer_model : ModelProto :=
  {| ir_version := 3;
     opset_import := [ {| domain := None; version := 7 |} ];
     graph := {| node := [dropout_node]; graph_input := [];
                 initializer := [initializer_X];
                 graph_output := [float_value "Y"] |} |}.

(** The loader as the base-class constructor leaves it when the caller
    pre-binds ["X"], and a Constant node whose output is ["X"]. *)
Definition prebound_loader : Loader :=
  set_tensors (insert "X" caller_X) empty_loader.


Definition constant_X_node : NodeProto :=
  {| op_type := "Constant"; node_name := "X"; input := []; output := ["X"];
     attribute := [attr "value" (ATensor initializer_X)] |}.

(** A Conv node without attributes, its channel-first input ["data"] of
    shape [1,3,32,32] declared in the table and its weights ["W"] of shape
    [16,3,3,3]. *)
Definition conv_node : NodeProto :=
  {| op_type := "Conv"; node_name := "conv1"; input := ["data"; "W"];
     output := ["conv1_out"]; attribute := [] |}.

Definition conv_loader : Loader :=
  set_tensors (fun _ => <["data" := Tensor_reset FloatTy [1; 3; 32; 32]]>
                        (<["W" := Tensor_reset FloatTy [16; 3; 3; 3]]> ∅))
    (set_versions 3 7 empty_loader).

Definition conv_input : Node :=
  VariableNode "data" (Tensor_reset FloatTy [1; 3; 32; 32]).

(** MaxPool nodes carrying [global_pooling]: one with a [kernel_shape] of
    3, one without [kernel_shape]; the input ["data7"] is channel-first of
    shape [1,64,7,7]. *)
Definition global_maxpool_node : NodeProto :=
  {| op_type := "MaxPool"; node_name := "pool"; input := ["data7"];
     output := ["pool_out"];
     attribute := [attr "kernel_shape" (AInts [3; 3]);
                   attr "global_pooling" (AInt 1)] |}.

Definition global_maxpool_no_kernel : NodeProto :=
  {| op_type := "MaxPool"; node_name := "pool"; input := ["data7"];
     output := ["pool_out"];
     attribute := [attr "global_pooling" (AInt 1)] |}.

Definition pool_input : Node :=
  VariableNode "data7" (Tensor_reset FloatTy [1; 64; 7; 7]).

Definition pool_loader : Loader :=
  set_nodeByName (insert "data7" pool_input) (set_versions 3 7 empty_loader).

(** A model whose second node has an operator type outside the lowering
    table; a third node depends on it. *)
Definition foo_node : NodeProto :=
  {| op_type := "Foo"; node_name := "foo1"; input := ["Y"]; output := ["Z"];
     attribute := [] |}.

Definition after_foo_node : NodeProto :=
  {| op_type := "Dropout"; node_name := "drop2"; input := ["Z"];
     output := ["W"]; attribute := [] |}.

Definition foo_model : ModelProto :=
  {| ir_version := 3;
     opset_import := [ {| domain := None; version := 7 |} ];
     graph := {| node := [dropout_node; foo_node; after_foo_node];
                 graph_input := [];
                 initializer := [initializer_X];
                 graph_output := [float_value "W"] |} |}.

(** Imports whose first entry without a namespace has version 0, before
    a usable one. *)
Definition zero_first_model : ModelProto :=
  {| ir_version := 3;
     opset_import := [ {| domain := Some "ai.onnx.ml"; version := 2 |};
                       {| domain := Some ""; version := 0 |};
                       {| domain := None; version := 7 |} ];
     graph := empty_graph |}.

(** Declared inputs: ["X"] twice, with different shapes, and ["idx"]. *)
Definition declared_inputs : GraphProto :=
  {| node := []; 
     graph_input := [ {| vi_name := "X"; vi_type := tensor_type FLOAT [4] |};
                      {| vi_name := "idx"; vi_type := tensor_type INT64 [1] |};
                      {| vi_name := "X"; vi_type := tensor_type FLOAT [1; 2] |} ];
     initializer := []; graph_output := [] |}.

(** A loader in which ["Y"] is bound to a node, and graphs declaring the
    outputs ["Y"], and ["Y"] with the unbound ["Q"]. *)
Definition bound_Y_loader : Loader :=
  set_nodeByName (insert "Y" (VariableNode "X" caller_X)) prebound_loader.

Definition outputs_Y : GraphProto :=
  {| node := []; graph_input := []; initializer := [];
     graph_output := [float_value "Y"] |}.

Definition outputs_Y_Q : GraphProto :=
  {| node := []; graph_input := []; initializer := [];
     graph_output := [float_value "Y"; float_value "Q"] |}.

(** A model that declares its input ["X"] and also carries an initializer
    for it. *)
Definition declared_X_model : ModelProto :=
  {| ir_version := 3;
     opset_import := [ {| domain := None; version := 7 |} ];
     graph := {| node := [dropout_node];
                 graph_input := [float_value "X"];
                 initializer := [initializer_X];
                 graph_output := [float_value "Y"] |} |}.

(** A Constant node for ["X"] followed by a Dropout that reads it. *)
Definition constant_then_dropout : GraphProto :=
  {| node := [constant_X_node; dropout_node]; graph_input := [];
     initializer := []; graph_output := [float_value "Y"] |}.


Definition global_average_node : NodeProto :=
  {| op_type := "GlobalAveragePool"; node_name := "gap"; input := ["data7"];
     output := ["gap_out"]; attribute := [] |}.

Definition global_average_oblong : NodeProto :=
  {| op_type := "GlobalAveragePool"; node_name := "gap"; input := ["data75"];
     output := ["gap_out"]; attribute := [] |}.

Definition oblong_input : Node :=
  VariableNode "data75" (Tensor_reset FloatTy [1; 64; 7; 5]).

Definition pools_loader : Loader :=
  set_nodeByName (insert "data75" oblong_input) pool_loader.

(** Squeeze and Concat nodes without their required attribute, and a
    Concat of ["data7"], ["data75"], ["data7"] along axis 1. *)
Definition squeeze_no_axes : NodeProto :=
  {| op_type := "Squeeze"; node_name := "sq"; input := ["data7"];
     output := ["sq_out"]; attribute := [] |}.

Definition concat_node : NodeProto :=
  {| op_type := "Concat"; node_name := "cat";
     input := ["data7"; "data75"; "data7"]; output := ["cat_out"];
     attribute := [attr "axis" (AInt 1)] |}.

(** A Gemm of opset 7 that transposes B and carries [broadcast=0], over
    bound operands of shapes [2,3], [4,3] and [4]. *)
Definition gemm_node : NodeProto :=
  {| op_type := "Gemm"; node_name := "fc"; input := ["A"; "B"; "C"];
     output := ["fc_out"];
     attribute := [attr "transB" (AInt 2); attr "broadcast" (AInt 0)] |}.

Definition gemm_A : Node := VariableNode "A" (Tensor_reset FloatTy [2; 3]).
Definition gemm_B : Node := VariableNode "B" (Tensor_reset FloatTy [4; 3]).
Definition gemm_C : Node := VariableNode "C" (Tensor_reset FloatTy [4]).

Definition gemm_loader : Loader :=
  set_nodeByName (fun _ => <["A" := gemm_A]> (<["B" := gemm_B]>
                             (<["C" := gemm_C]> ∅)))
    (set_versions 3 7 empty_loader).

(** A BatchNormalization node over ["data7"] with its four parameter
    tensors in the table. *)
Definition bn_node : NodeProto :=
  {| op_type := "BatchNormalization"; node_name := "bn";
     input := ["data7"; "scale"; "bias"; "mean"; "var"];
     output := ["bn_out"]; attribute := [] |}.

Definition bn_param : Tensor := Tensor_reset FloatTy [64].

Definition bn_loader : Loader :=
  set_tensors (fun _ => <["scale" := bn_param]> (<["bias" := bn_param]>
                          (<["mean" := bn_param]> (<["var" := bn_param]> ∅))))
    pool_loader.

(** Conv nodes over ["data"] with oblong weights ["W35"] of shape
    [16,3,3,5]: one that states [kernel_shape], strides and pads, with a
    third input that is not a table tensor, and one without attributes. *)
Definition conv_explicit_node : NodeProto :=
  {| op_type := "Conv"; node_name := "conv2"; input := ["data"; "W35"; "b"];
     output := ["conv2_out"];
     attribute := [attr "kernel_shape" (AInts [3; 3]);
                   attr "strides" (AInts [2; 2]);
                   attr "pads" (AInts [1; 1; 1; 1])] |}.

Definition conv_oblong_node : NodeProto :=
  {| op_type := "Conv"; node_name := "conv3"; input := ["data"; "W35"];
     output := ["conv3_out"]; attribute := [] |}.

Definition conv35_loader : Loader :=
  set_tensors (insert "W35" (Tensor_reset FloatTy [16; 3; 3; 5])) conv_loader.

(** An AveragePool with a 2x2 kernel and stride 2 over ["data7"]. *)
Definition average_pool_node : NodeProto :=
  {| op_type := "AveragePool"; node_name := "avg"; input := ["data7"];
     output := ["avg_out"];
     attribute := [attr "kernel_shape" (AInts [2; 2]);
                   attr "strides" (AInts [2; 2])] |}.

(** * Properties *)

(** ** Tensor materialisation *)

Lemma length_Tensor_reset k dims :
  Tensor_size (Tensor_reset k dims) = Z.to_nat (to_size_t (product dims)).
Proof. unfold Tensor_size, Tensor_reset; simpl. apply length_replicate. Qed.

(** The copy loop started at index [i] overwrites the window
    [i, i + length data) and keeps the rest of the buffer. *)
Lemma copyElements_window data : forall T i,
  (i + length data <= Tensor_size T)%nat ->
  copyElements T i data =
    Ok {| elemKind := elemKind T; t_dims := t_dims T;
          t_data := take i (t_data T) ++ data
                    ++ drop (i + length data) (t_data T) |}.
Proof.
  induction data as [|f rest IH]; intros T i Hle; simpl in *.
  - rewrite Nat.add_0_r, take_drop. by destruct T.
  - unfold Handle_raw_set, assert.
    rewrite bool_decide_eq_true_2 by lia. simpl.
    rewrite IH; simpl.
    2:{ unfold Tensor_size in *; simpl. rewrite length_insert. lia. }
    unfold Tensor_size in Hle.
    f_equal. f_equal.
    rewrite (take_S_r _ i f) by (apply list_lookup_insert_eq; lia).
    rewrite take_insert_ge by lia.
    rewrite drop_insert_lt by lia.
    rewrite <- app_assoc. simpl.
    by replace (S (i + length rest)) with (i + S (length rest))%nat by lia.
Qed.

(** A copy loop that runs past the end of the buffer fails. *)
Lemma copyElements_overrun data : forall T i,
  (i <= Tensor_size T < i + length data)%nat ->
  is_Err (copyElements T i data).
Proof.
  induction data as [|f rest IH]; intros T i Hlt; simpl in *.
  - lia.
  - unfold Handle_raw_set, assert.
    destruct (bool_decide (i < Tensor_size T)%nat) eqn:Hb; simpl.
    + apply bool_decide_eq_true_1 in Hb.
      apply IH. unfold Tensor_size in *; simpl. rewrite length_insert. lia.
    + by eexists.
Qed.

(** C9.  A tensor record whose element kind is neither float32 nor int64,
    and a float32 or int64 record that carries neither a non-empty element
    array nor a byte blob, is not materialised: [loadTensor] fails with an
    [UnsupportedTensorKind] failure and produces no buffer. *)
Theorem loadTensor_unsupported (i : TensorProto) :
  (data_type i <> FLOAT /\ data_type i <> INT64) \/
  (data_type i = FLOAT /\ float_data i = [] /\ raw_data i = None) \/
  (data_type i = INT64 /\ int64_data i = [] /\ raw_data i = None) ->
  exists msg, loadTensor i = Err (Fail UnsupportedTensorKind msg).
Proof.
  unfold loadTensor.
  intros [[Hf Hi] | [(Hf & Hd & Hr) | (Hi & Hd & Hr)]].
  - rewrite !decide_False by done. by eexists.
  - rewrite decide_True by done. rewrite Hd, Hr. simpl. by eexists.
  - rewrite decide_False by (rewrite Hi; done).
    rewrite decide_True by done. rewrite Hd, Hr. simpl. by eexists.
Qed.

Lemma loadTensor_unsupported_witness :
  ((data_type double_record <> FLOAT /\ data_type double_record <> INT64) \/
   (data_type double_record = FLOAT /\ float_data double_record = []
    /\ raw_data double_record = None) \/
   (data_type double_record = INT64 /\ int64_data double_record = []
    /\ raw_data double_record = None)) /\
  exists msg, loadTensor double_record = Err (Fail UnsupportedTensorKind msg).
Proof.
  assert (H : (data_type double_record <> FLOAT /\ data_type double_record <> INT64) \/
   (data_type double_record = FLOAT /\ float_data double_record = []
    /\ raw_data double_record = None) \/
   (data_type double_record = INT64 /\ int64_data double_record = []
    /\ raw_data double_record = None)).
  { left. split; discriminate. }
  split; [exact H | exact (loadTensor_unsupported double_record H)].
Defined.

(** C7, as amended.  A float32 record that carries a non-empty element
    array of no more elements than its dims declare is materialised into a
    new float buffer shaped per the dims, holding the record's elements in
    order followed by the zeros of the fresh buffer; when the array has
    exactly the declared number of elements the buffer's elements are the
    record's elements in the same order. *)
Theorem loadTensor_float_data (i : TensorProto) :
  data_type i = FLOAT ->
  float_data i <> [] ->
  (length (float_data i)
     <= Z.to_nat (to_size_t (product (to_size_t <$> tp_dims i))))%nat ->
  exists T, loadTensor i = Ok T /\
    elemKind T = FloatTy /\
    t_dims T = to_size_t <$> tp_dims i /\
    t_data T = float_data i ++
      replicate (Z.to_nat (to_size_t (product (to_size_t <$> tp_dims i)))
                 - length (float_data i)) 0 /\
    (length (float_data i)
       = Z.to_nat (to_size_t (product (to_size_t <$> tp_dims i))) ->
     t_data T = float_data i).
Proof.
  intros Hk Hne Hlen. unfold loadTensor.
  rewrite decide_True by done.
  assert (0 < length (float_data i))%nat as Hpos.
  { destruct (float_data i) eqn:E; [done | simpl; lia]. }
  rewrite bool_decide_eq_true_2 by done.
  rewrite copyElements_window by (rewrite length_Tensor_reset; lia).
  eexists; split; [reflexivity|]. simpl.
  rewrite drop_replicate.
  repeat split.
  intros Heq. rewrite Heq, Nat.sub_diag. simpl. by rewrite app_nil_r.
Qed.

Lemma loadTensor_float_data_witness :
  data_type Parameter6 = FLOAT /\
  float_data Parameter6 <> [] /\
  exists T, loadTensor Parameter6 = Ok T /\
    elemKind T = FloatTy /\
    t_dims T = [8] /\
    t_data T = Parameter6_values.
Proof.
  assert (Hk : data_type Parameter6 = FLOAT) by reflexivity.
  assert (Hne : float_data Parameter6 <> []) by discriminate.
  assert (Hlen : (length (float_data Parameter6)
     <= Z.to_nat (to_size_t (product (to_size_t <$> tp_dims Parameter6))))%nat)
    by (vm_compute; lia).
  destruct (loadTensor_float_data Parameter6 Hk Hne Hlen)
    as (T & HT & Hkind & Hdims & _ & Hdata).
  repeat split; [discriminate|].
  exists T. repeat split; [exact HT | exact Hkind | exact Hdims |].
  apply Hdata. reflexivity.
Defined.

(** C7 as first stated does not hold: a float32 record with a non-empty
    element array shorter than its dims declare is materialised into a
    buffer whose elements are not the record's elements. *)
Lemma loadTensor_short_record_counterexample :
  data_type short_record = FLOAT /\
  float_data short_record = [1065353216] /\
  loadTensor short_record =
    Ok {| elemKind := FloatTy; t_dims := [2]; t_data := [1065353216; 0] |} /\
  [1065353216; 0] <> float_data short_record.
Proof. repeat split. discriminate. Qed.

(** ** Shared policies *)

Lemma to_size_t_id z : 0 <= z < 2 ^ 64 -> to_size_t z = z.
Proof. intros Hz. unfold to_size_t, wrap_unsigned. by apply Z.mod_small. Qed.

Lemma to_size_t_id_list (l : list Z) :
  Forall (fun z => 0 <= z < 2 ^ 64) l -> to_size_t <$> l = l.
Proof.
  induction 1 as [|z l Hz _ IH]; [done|].
  rewrite fmap_cons, IH, to_size_t_id; done.
Qed.

Lemma dict_count_Some (dict : ArgumentDictionaryTy) key a :
  dict !! key = Some a -> dict_count dict key = true /\ dict_at dict key = Ok a.
Proof.
  intros H. unfold dict_count, dict_at. rewrite H.
  split; [by apply bool_decide_eq_true_2 | done].
Qed.

Lemma dict_count_None (dict : ArgumentDictionaryTy) key :
  dict !! key = None -> dict_count dict key = false.
Proof.
  intros H. unfold dict_count. rewrite H.
  apply bool_decide_eq_false_2. by intros [? ?].
Qed.

(** C3.  [getPads]: an existing [pads] attribute is returned verbatim
    (element for element as [size_t], unchanged when the entries are
    non-negative 64-bit values); otherwise an existing [auto_pad] attribute
    gives all-zero padding when it is ["VALID"] and a failure for every
    other string; with neither attribute the padding is all zero. *)
Theorem getPads_spec (dict : ArgumentDictionaryTy) :
  (forall a l, dict !! "pads" = Some a -> attr_value a = AInts l ->
     getPads dict = Ok (to_size_t <$> l) /\
     (Forall (fun z => 0 <= z < 2 ^ 64) l -> getPads dict = Ok l)) /\
  (forall a str, dict !! "pads" = None -> dict !! "auto_pad" = Some a ->
     attr_value a = AString str ->
     (str = "VALID" -> getPads dict = Ok [0; 0; 0; 0]) /\
     (str <> "VALID" ->
      exists msg, getPads dict = Err (Fail UnsupportedAttributeShape msg))) /\
  (dict !! "pads" = None -> dict !! "auto_pad" = None ->
     getPads dict = Ok [0; 0; 0; 0]).
Proof.
  unfold getPads. split; [|split].
  - intros a l Hp Hval.
    destruct (dict_count_Some dict _ _ Hp) as [-> ->]. simpl.
    unfold getShape. rewrite Hval. split; [done|].
    intros Hall. by rewrite to_size_t_id_list.
  - intros a str Hp Ha Hval. rewrite (dict_count_None dict _ Hp).
    destruct (dict_count_Some dict _ _ Ha) as [-> ->]. simpl.
    unfold loadStr. rewrite Hval. simpl. split.
    + intros ->. done.
    + intros Hne. rewrite decide_False by done. by eexists.
  - intros Hp Ha.
    by rewrite (dict_count_None dict _ Hp), (dict_count_None dict _ Ha).
Qed.

Lemma getPads_spec_witness :
  same_upper_dict !! "pads" = None /\
  same_upper_dict !! "auto_pad" = Some (attr "auto_pad" (AString "SAME_UPPER")) /\
  "SAME_UPPER" <> "VALID" /\
  (exists msg, getPads same_upper_dict = Err (Fail UnsupportedAttributeShape msg)) /\
  getPads ∅ = Ok [0; 0; 0; 0].
Proof.
  assert (Hp : same_upper_dict !! "pads" = None) by reflexivity.
  assert (Ha : same_upper_dict !! "auto_pad"
               = Some (attr "auto_pad" (AString "SAME_UPPER"))) by reflexivity.
  assert (Hne : "SAME_UPPER" <> "VALID") by discriminate.
  refine (conj Hp (conj Ha (conj Hne (conj _ _)))).
  - exact (proj2 (proj1 (proj2 (getPads_spec same_upper_dict))
                   _ _ Hp Ha eq_refl) Hne).
  - exact (proj2 (proj2 (getPads_spec ∅)) eq_refl eq_refl).
Defined.

(** C4.  [getBroadcast]: with a resolved opset version above 6 the result
    is true whatever the attributes; with version 6 or less the result is
    true exactly when a [broadcast] attribute is present with integer value
    1, so an absent attribute gives false and [broadcast=1] gives true. *)
Theorem getBroadcast_spec (dict : ArgumentDictionaryTy) (s : Loader) :
  (6 < opsetVersion_ s -> getBroadcast dict s = Ok (true, s)) /\
  (opsetVersion_ s <= 6 ->
     (getBroadcast dict s = Ok (true, s) <->
      exists a, dict !! "broadcast" = Some a /\ attr_value a = AInt 1) /\
     (dict !! "broadcast" = None -> getBroadcast dict s = Ok (false, s)) /\
     (forall a, dict !! "broadcast" = Some a -> attr_value a = AInt 1 ->
        getBroadcast dict s = Ok (true, s))).
Proof.
  unfold getBroadcast, gets, mbind, LM_bind, mret, LM_ret. split.
  - intros Hv. by rewrite (proj2 (Z.ltb_lt _ _) Hv).
  - intros Hv. rewrite (proj2 (Z.ltb_ge _ _) Hv).
    assert (Hpresent : forall a, dict !! "broadcast" = Some a ->
              attr_value a = AInt 1 ->
              (if dict_count dict "broadcast"
               then fun s0 => match liftR (dict_at dict "broadcast") s0 with
                    | Ok (a0, s') =>
                        match liftR (loadInt a0) s' with
                        | Ok (i, s'0) => Ok (i =? 1, s'0)
                        | Err e => Err e
                        end
                    | Err e => Err e
                    end
               else fun s0 => Ok (false, s0)) s = Ok (true, s)).
    { intros a Ha Hval. destruct (dict_count_Some dict _ _ Ha) as [-> ->].
      simpl. unfold loadInt. by rewrite Hval. }
    repeat split.
    + destruct (dict !! "broadcast") as [a|] eqn:Ha.
      * destruct (dict_count_Some dict _ _ Ha) as [-> ->]. simpl.
        unfold loadInt. destruct (attr_value a) as [i| | | |] eqn:Hval;
          simpl; try discriminate.
        intros [= Hi]. apply Z.eqb_eq in Hi. subst i. by exists a.
      * rewrite (dict_count_None dict _ Ha). discriminate.
    + intros (a & Ha & Hval). by apply (Hpresent a).
    + intros Ha. by rewrite (dict_count_None dict _ Ha).
    + exact Hpresent.
Qed.

Lemma getBroadcast_spec_witness :
  opsetVersion_ opset6_loader <= 6 /\
  getBroadcast ∅ opset6_loader = Ok (false, opset6_loader) /\
  getBroadcast broadcast_dict opset6_loader = Ok (true, opset6_loader) /\
  6 < opsetVersion_ (set_versions 3 7 empty_loader) /\
  getBroadcast ∅ (set_versions 3 7 empty_loader)
    = Ok (true, set_versions 3 7 empty_loader).
Proof.
  assert (H6 : opsetVersion_ opset6_loader <= 6) by (simpl; lia).
  assert (H7 : 6 < opsetVersion_ (set_versions 3 7 empty_loader)) by (simpl; lia).
  refine (conj H6 (conj _ (conj _ (conj H7 _)))).
  - exact (proj1 (proj2 (proj2 (getBroadcast_spec ∅ opset6_loader) H6)) eq_refl).
  - exact (proj2 (proj2 (proj2 (getBroadcast_spec broadcast_dict opset6_loader) H6))
             (attr "broadcast" (AInt 1)) eq_refl eq_refl).
  - exact (proj1 (getBroadcast_spec ∅ (set_versions 3 7 empty_loader)) H7).
Defined.

(** ** Version resolution *)

(** The loop stops at the first import without a namespace. *)
Lemma firstDefaultOpset_first pre imp post opset :
  Forall (fun i => ~ unnamespaced i) pre -> unnamespaced imp ->
  firstDefaultOpset (pre ++ imp :: post) opset = version imp.
Proof.
  induction 1 as [|i pre Hi _ IH]; intros Himp; simpl.
  - by rewrite bool_decide_eq_true_2.
  - rewrite bool_decide_eq_false_2 by done. by apply IH.
Qed.

(** Without such an import the version keeps its initial value. *)
Lemma firstDefaultOpset_none imports opset :
  Forall (fun i => ~ unnamespaced i) imports ->
  firstDefaultOpset imports opset = opset.
Proof.
  induction 1 as [|i l Hi _ IH]; simpl; [done|].
  by rewrite bool_decide_eq_false_2.
Qed.

(** The imports before the first element kept by a filter are all
    rejected by it. *)
Lemma filter_cons_split {A} (P : A -> Prop) `{forall x, Decision (P x)}
    (l : list A) x rest :
  filter P l = x :: rest ->
  exists pre post, l = pre ++ x :: post /\ Forall (fun y => ~ P y) pre /\ P x.
Proof.
  induction l as [|y l IH]; [done|].
  rewrite filter_cons. destruct (decide (P y)) as [Hy|Hy].
  - intros [= -> Hrest]. by exists [], l.
  - intros Hf. destruct (IH Hf) as (pre & post & -> & Hpre & Hx).
    exists (y :: pre), post. repeat split; [|done]. by constructor.
Qed.

Lemma setVersion_run MP s :
  setVersion MP s =
    if 3 <=? ir_version MP then
      let opset := firstDefaultOpset (opset_import MP) 0 in
      if 0 <? opset then Ok (tt, set_versions (ir_version MP) opset s)
      else Err (Fail VersionError "The opset of this ONNX model is not supported.")
    else Err (Fail VersionError
           "This ONNX model with ir_version < 3 is too old to be supported.").
Proof.
  unfold setVersion, mbind, LM_bind, modify, liftR, assert.
  destruct (3 <=? ir_version MP); [|done].
  by destruct (0 <? firstDefaultOpset (opset_import MP) 0).
Qed.

Lemma loadProto_stream_run `{Collaborators} iStream parsed MP s :
  ParseFromCodedStream iStream = (parsed, MP) ->
  loadProto_stream iStream s =
    match setVersion MP s with
    | Ok (_, s') => Ok ((parsed, graph MP), s')
    | Err e => Err e
    end.
Proof.
  intros Hparse. unfold loadProto_stream. rewrite Hparse.
  unfold mbind, LM_bind. by destruct (setVersion MP s) as [[[] s']|e].
Qed.

(** C6.  Version resolution takes [opsetVersion_] from the first opset
    import whose domain is absent or empty.  When the IR version is below
    3, and when no import is without a namespace, it fails with a version
    error and so does [loadProto].  A model of IR version 3 with a single
    import without a namespace, of version 7, resolves to opset version 7,
    and [loadProto] returns its graph. *)
Theorem setVersion_spec `{Collaborators} (MP : ModelProto) (s : Loader)
    (iStream : list Z) (parsed : bool) :
  ParseFromCodedStream iStream = (parsed, MP) ->
  (ir_version MP < 3 ->
     exists msg, setVersion MP s = Err (Fail VersionError msg) /\
                 loadProto_stream iStream s = Err (Fail VersionError msg)) /\
  (Forall (fun i => ~ unnamespaced i) (opset_import MP) ->
     exists msg, setVersion MP s = Err (Fail VersionError msg) /\
                 loadProto_stream iStream s = Err (Fail VersionError msg)) /\
  (forall pre imp post,
     opset_import MP = pre ++ imp :: post ->
     Forall (fun i => ~ unnamespaced i) pre -> unnamespaced imp ->
     3 <= ir_version MP -> 0 < version imp ->
     setVersion MP s = Ok (tt, set_versions (ir_version MP) (version imp) s)) /\
  (forall imp,
     ir_version MP = 3 ->
     filter unnamespaced (opset_import MP) = [imp] -> version imp = 7 ->
     setVersion MP s = Ok (tt, set_versions 3 7 s) /\
     opsetVersion_ (set_versions 3 7 s) = 7 /\
     loadProto_stream iStream s = Ok ((parsed, graph MP), set_versions 3 7 s)).
Proof.
  intros Hparse. rewrite (loadProto_stream_run _ _ _ _ Hparse).
  rewrite setVersion_run. split; [|split; [|split]].
  - intros Hir. rewrite (proj2 (Z.leb_gt _ _) Hir). by eexists.
  - intros Hall. rewrite firstDefaultOpset_none by done. simpl.
    destruct (3 <=? ir_version MP); by eexists.
  - intros pre imp post -> Hpre Himp Hir Hv.
    rewrite (proj2 (Z.leb_le _ _) Hir).
    rewrite firstDefaultOpset_first by done. simpl.
    by rewrite (proj2 (Z.ltb_lt _ _) Hv).
  - intros imp Hir Hf Hv.
    destruct (filter_cons_split _ _ _ _ Hf) as (pre & post & Himps & Hpre & Himp).
    rewrite Himps, Hir.
    rewrite firstDefaultOpset_first by done. rewrite Hv. done.
Qed.

Lemma setVersion_spec_witness :
  ir_version opset7_model = 3 /\
  filter unnamespaced (opset_import opset7_model)
    = [ {| domain := None; version := 7 |} ] /\
  setVersion opset7_model empty_loader = Ok (tt, set_versions 3 7 empty_loader) /\
  opsetVersion_ (set_versions 3 7 empty_loader) = 7 /\
  @loadProto_stream (example_collaborators opset7_model) [] empty_loader
    = Ok ((true, empty_graph), set_versions 3 7 empty_loader).
Proof.
  assert (Hir : ir_version opset7_model = 3) by reflexivity.
  assert (Hf : filter unnamespaced (opset_import opset7_model)
               = [ {| domain := None; version := 7 |} ]) by reflexivity.
  pose proof (proj2 (proj2 (proj2
    (@setVersion_spec (example_collaborators opset7_model)
       opset7_model empty_loader [] true eq_refl)))
    {| domain := None; version := 7 |} Hir Hf eq_refl) as (H1 & H2 & H3).
  exact (conj Hir (conj Hf (conj H1 (conj H2 H3)))).
Defined.

(** ** Stepping through the loader monad *)

Lemma LM_bind_Ok {A B} (m : LM A) (f : A -> LM B) s a s' :
  m s = Ok (a, s') -> (m ≫= f) s = f a s'.
Proof. intros Hm. unfold mbind, LM_bind. by rewrite Hm. Qed.

Lemma LM_bind_Err {A B} (m : LM A) (f : A -> LM B) s e :
  m s = Err e -> (m ≫= f) s = Err e.
Proof. intros Hm. unfold mbind, LM_bind. by rewrite Hm. Qed.

Lemma LM_bind_liftR_Ok {A B} (r : Result A) (f : A -> LM B) s a :
  r = Ok a -> (liftR r ≫= f) s = f a s.
Proof. intros ->. done. Qed.

Lemma LM_bind_liftR_Err {A B} (r : Result A) (f : A -> LM B) s e :
  r = Err e -> (liftR r ≫= f) s = Err e.
Proof. intros ->. done. Qed.

Lemma LM_bind_inv {A B} (m : LM A) (f : A -> LM B) s b s' :
  (m ≫= f) s = Ok (b, s') ->
  exists a s1, m s = Ok (a, s1) /\ f a s1 = Ok (b, s').
Proof.
  unfold mbind, LM_bind. destruct (m s) as [[a s1]|e]; [|done].
  intros Hf. by exists a, s1.
Qed.

Lemma repeated_at_Some (l : list string) i x :
  l !! i = Some x -> repeated_at l i = Ok x.
Proof. unfold repeated_at. by intros ->. Qed.

(** ** The tensor table and caller bindings *)

(** Lowering a Constant node whose output name is already in the tensor
    table changes nothing. *)
Lemma loadConstant_prebound op dict s name T :
  output op !! 0%nat = Some name -> tensors_ s !! name = Some T ->
  loadConstant op dict s = Ok (true, s).
Proof.
  intros Hout HT. unfold loadConstant.
  rewrite (LM_bind_liftR_Ok _ _ _ name) by by apply repeated_at_Some.
  unfold mbind, LM_bind, gets. rewrite HT.
  by rewrite bool_decide_eq_true_2.
Qed.

(** Loading initializers stores the materialised record under its name
    whatever the table held there before. *)
Lemma loadInitializers_loop_last inits : forall i T s,
  Forall (fun r => is_Ok (loadTensor r)) inits -> loadTensor i = Ok T ->
  exists s', loadInitializers_loop (inits ++ [i]) s = Ok (tt, s') /\
    tensors_ s' !! tp_name i = Some T.
Proof.
  induction inits as [|r inits IH]; intros i T s Hall Hi; simpl.
  - rewrite (LM_bind_liftR_Ok _ _ _ T) by done.
    eexists; split; [reflexivity|]. simpl. apply lookup_insert_eq.
  - inversion Hall as [|? ? [Tr Hr] Hrest]; subst.
    rewrite (LM_bind_liftR_Ok _ _ _ Tr) by done.
    unfold mbind at 1, LM_bind at 1, modify at 1. by apply IH.
Qed.

(** C2, evaluated on the importer.  The caller pre-binds ["X"]; the model's
    initializer list defines ["X"] too.  After the load the table holds the
    initializer's tensor under ["X"], not the caller's.  Lowering a
    Constant node with output ["X"] on the pre-bound table leaves the
    caller's tensor in place. *)
Theorem prebound_initializer_overwritten :
  exists l T,
    @ONNXModelLoader (example_collaborators initializer_model)
       "model.onnx" ["X"] [caller_X] [] = Ok l /\
    loadTensor initializer_X = Ok T /\
    tensors_ l !! "X" = Some T /\
    T <> caller_X /\
    ProtobufLoader ["X"] [caller_X] [] = Ok prebound_loader /\
    @loadOperator (example_collaborators initializer_model) constant_X_node
       prebound_loader = Ok (true, prebound_loader) /\
    tensors_ prebound_loader !! "X" = Some caller_X.
Proof.
  eexists. eexists. split; [vm_compute; reflexivity|].
  split; [vm_compute; reflexivity|].
  split; [reflexivity|]. split; [discriminate|]. split; [reflexivity|].
  split; [|reflexivity].
  unfold loadOperator. simpl.
  unfold mbind at 1, LM_bind at 1, mret, LM_ret.
  by apply (loadConstant_prebound _ _ _ "X" caller_X).
Qed.

(** ** Lowering of spatial operators *)

Lemma Tensor_transpose_dims T shuffle :
  length (t_dims T) = length shuffle ->
  exists T', Tensor_transpose T shuffle = Ok T' /\
    t_dims T' = shuffleDims (t_dims T) shuffle /\ elemKind T' = elemKind T.
Proof.
  intros Hlen. unfold Tensor_transpose, assert.
  rewrite bool_decide_eq_true_2 by done. simpl. by eexists.
Qed.

(** After [addNodeAsOutput] every declared output resolves to the node. *)
Lemma foldl_insert_lookup {V} (outs : list string) (R : V) :
  forall (m : gmap string V) o,
  o ∈ outs -> foldl (fun m o => <[o := R]> m) m outs !! o = Some R.
Proof.
  induction outs as [|x outs IH] using rev_ind; intros m o Hin.
  - by apply elem_of_nil in Hin.
  - rewrite foldl_app. simpl. apply elem_of_app in Hin as [Hin|Hin].
    + destruct (decide (x = o)) as [->|Hne].
      * apply lookup_insert_eq.
      * rewrite lookup_insert_ne by done. by apply IH.
    + apply list_elem_of_singleton in Hin as ->. apply lookup_insert_eq.
Qed.

Lemma loadStride_default (dict : ArgumentDictionaryTy) :
  dict !! "strides" = None -> loadStride dict = Ok 1.
Proof. intros H. unfold loadStride. by rewrite (dict_count_None dict _ H). Qed.

Lemma getPads_default (dict : ArgumentDictionaryTy) :
  dict !! "pads" = None ->
  (forall a, dict !! "auto_pad" = Some a -> attr_value a = AString "VALID") ->
  getPads dict = Ok [0; 0; 0; 0].
Proof.
  intros Hp Ha. unfold getPads. rewrite (dict_count_None dict _ Hp).
  destruct (dict !! "auto_pad") as [a|] eqn:E.
  - destruct (dict_count_Some dict _ _ E) as [-> ->]. simpl.
    unfold loadStr. by rewrite (Ha a eq_refl).
  - by rewrite (dict_count_None dict _ E).
Qed.

(** The bias of a convolution is read without changing the loader. *)
Lemma loadBias_run (op : NodeProto) depth s :
  exists biasTensor,
    loadBias op depth s = Ok (biasTensor, s) /\
    ((length (input op) <= 2)%nat -> biasTensor = zeroBias depth).
Proof.
  unfold loadBias.
  destruct (bool_decide (2 < length (input op))%nat) eqn:Hb.
  - apply bool_decide_eq_true_1 in Hb.
    destruct (lookup_lt_is_Some_2 (input op) 2 Hb) as [nm Hnm].
    rewrite (LM_bind_liftR_Ok _ _ _ nm) by by apply repeated_at_Some.
    unfold mbind, LM_bind, gets, getTensorByName.
    destruct (tensors_ s !! nm) as [b|] eqn:Hnmb.
    + rewrite bool_decide_eq_true_2 by done. rewrite Hnmb.
      exists b. split; [done | lia].
    + rewrite bool_decide_eq_false_2 by by intros [? ?].
      exists (zeroBias depth). done.
  - by exists (zeroBias depth).
Qed.

Tactic Notation "step_liftR" constr(v) "by" tactic3(t) :=
  rewrite (LM_bind_liftR_Ok _ _ _ v) by t.

Tactic Notation "step_liftR" constr(v) :=
  rewrite (LM_bind_liftR_Ok _ _ _ v) by (eauto using repeated_at_Some).

Ltac step_with H := rewrite (LM_bind_Ok _ _ _ _ _ H).

(** A step whose outcome is found by evaluation ([createVariable],
    [addNode], [modify], [gets]). *)
Ltac step_run := erewrite LM_bind_Ok by reflexivity.

Ltac skip_branch :=
  match goal with
  | |- context [decide ?P] => rewrite (decide_False (P := P)) by
        (intros ?; intuition discriminate)
  end.

(** C1.  A Conv node without strides, kernel_shape or pads attributes,
    whose channel-first input has shape [1,3,32,32] and whose weight tensor
    has shape [16,3,3,3], is lowered to a convolution with kernel 3,
    stride 1, pads {0,0,0,0} and output depth 16 (the leading dimension of
    the transposed weight), of channel-last shape [1,30,30,16], between a
    channel-first-to-channel-last transpose of the input and the inverse
    transpose of the result, whose shape is [1,16,30,30]. *)
Theorem loadOperator_Conv_inferred `{Collaborators} (op : NodeProto)
    (s s0 s1 : Loader) (in0 in1 : string) (inN : Node) (w : Tensor) :
  let dict := loadArgumentMap op in
  let opName := loadOperatorName op in
  op_type op = "Conv" ->
  tryLoadCommonOperator "Conv" op dict s = Ok (false, s0) ->
  dict !! "strides" = None ->
  dict !! "kernel_shape" = None ->
  dict !! "pads" = None ->
  (forall a, dict !! "auto_pad" = Some a -> attr_value a = AString "VALID") ->
  (forall a, dict !! "group" = Some a -> exists g, attr_value a = AInt g) ->
  input op !! 0%nat = Some in0 ->
  input op !! 1%nat = Some in1 ->
  getOrCreateVariableByName in0 s0 = Ok (inN, s1) ->
  Node_dims inN = [1; 3; 32; 32] ->
  tensors_ s1 !! in1 = Some w ->
  t_dims w = [16; 3; 3; 3] ->
  exists wtag biasTensor group s',
    let filter := VariableNode "conv.filter" wtag in
    let bias := VariableNode "conv.bias" biasTensor in
    let tr := TransposeNode opName inN NCHW2NHWC in
    let conv := ConvolutionNode opName tr filter bias
                  (FloatTy, [1; 30; 30; 16]) 3 1 [0; 0; 0; 0] group in
    let N := TransposeNode opName conv NHWC2NCHW in
    loadOperator op s = Ok (true, s') /\
    Tensor_transpose w NCHW2NHWC = Ok wtag /\
    t_dims wtag = [16; 3; 3; 3] /\
    ((length (input op) <= 2)%nat -> biasTensor = zeroBias 16) /\
    (dict !! "group" = None -> group = 1) /\
    G_ s' = G_ s1 ++ [tr; conv; N] /\
    variables_ s' = variables_ s1 ++ [filter; bias] /\
    tensors_ s' = tensors_ s1 /\
    (forall o, o ∈ output op -> nodeByName_ s' !! o = Some N) /\
    Node_dims tr = [1; 32; 32; 3] /\
    Node_dims conv = [1; 30; 30; 16] /\
    Node_dims N = [1; 16; 30; 30].
Proof.
  intros dict opName Htype Hcommon Hstrides Hkernel Hpads Hauto Hgroup
    Hin0 Hin1 Hin Hdims Hw Hwdims.
  destruct (Tensor_transpose_dims w NCHW2NHWC) as (wtag & Hwtag & Htagdims & _);
    [by rewrite Hwdims|].
  rewrite Hwdims in Htagdims. change (shuffleDims _ _) with [16; 3; 3; 3] in Htagdims.
  assert (exists group,
            (if dict_count dict "group"
             then a ← dict_at dict "group"; g ← loadInt a; Ok (to_unsigned g)
             else Ok 1) = Ok group /\ (dict !! "group" = None -> group = 1))
    as (group & Hg & Hg1).
  { destruct (dict !! "group") as [a|] eqn:E.
    - destruct (dict_count_Some dict _ _ E) as [-> ->].
      destruct (Hgroup a eq_refl) as [g Hval]. simpl. unfold loadInt.
      rewrite Hval. simpl. by eexists.
    - rewrite (dict_count_None dict _ E). by exists 1. }
  destruct (loadBias_run op 16
              (set_variables (fun vs => vs ++ [VariableNode "conv.filter" wtag]) s1))
    as (biasTensor & Hbias & Hbias0).
  exists wtag, biasTensor, group. eexists.
  split; [|split; [exact Hwtag | split; [exact Htagdims | split; [exact Hbias0 |
           split; [exact Hg1|]]]]].
  - unfold loadOperator. fold dict. rewrite Htype.
    step_with Hcommon.
    do 1 skip_branch. rewrite decide_True by done.
    unfold loadConv.
    step_liftR 1 by (by apply loadStride_default).
    step_liftR group.
    step_liftR [0; 0; 0; 0] by (by apply getPads_default).
    step_liftR in0.
    step_with Hin.
    step_liftR in1.
    rewrite (LM_bind_Ok _ _ _ w s1) by (unfold getTensorByName; by rewrite Hw).
    step_liftR wtag.
    rewrite (LM_bind_liftR_Ok _ _ _ 16) by (by rewrite Htagdims).
    step_run.
    rewrite (dict_count_None dict _ Hkernel). simpl Node_dims. rewrite Htagdims.
    step_liftR 3 by done.
    step_with Hbias.
    step_run. step_run.
    simpl Node_dims. rewrite Hdims.
    change (shuffleDims [1; 3; 32; 32] NCHW2NHWC) with [1; 32; 32; 3].
    step_liftR {| shape_n := 1; shape_h := 32; shape_w := 32; shape_c := 3 |}
      by done.
    step_liftR (30, 30) by done.
    step_run. step_run. step_run.
    reflexivity.
  - simpl. rewrite Hdims.
    split; [by rewrite <- !app_assoc|]. split; [by rewrite <- !app_assoc|].
    split; [done|]. split; [|done].
    intros o Ho. by apply foldl_insert_lookup.
Qed.

Lemma empty_dict_absent key a (P : Prop) :
  (∅ : ArgumentDictionaryTy) !! key = Some a -> P.
Proof. by rewrite lookup_empty. Qed.

Lemma loadOperator_Conv_inferred_witness :
  op_type conv_node = "Conv" /\
  loadArgumentMap conv_node = ∅ /\
  Node_dims conv_input = [1; 3; 32; 32] /\
  tensors_ conv_loader !! "W" = Some (Tensor_reset FloatTy [16; 3; 3; 3]) /\
  exists wtag s',
    let tr := TransposeNode "conv1" conv_input NCHW2NHWC in
    let conv := ConvolutionNode "conv1" tr (VariableNode "conv.filter" wtag)
                  (VariableNode "conv.bias" (zeroBias 16))
                  (FloatTy, [1; 30; 30; 16]) 3 1 [0; 0; 0; 0] 1 in
    let N := TransposeNode "conv1" conv NHWC2NCHW in
    @loadOperator (example_collaborators opset7_model) conv_node conv_loader
      = Ok (true, s') /\
    t_dims wtag = [16; 3; 3; 3] /\
    G_ s' = [tr; conv; N] /\
    nodeByName_ s' !! "conv1_out" = Some N /\
    Node_dims N = [1; 16; 30; 30].
Proof.
  assert (Htype : op_type conv_node = "Conv") by reflexivity.
  assert (Hdict : loadArgumentMap conv_node = ∅) by reflexivity.
  assert (Hdims : Node_dims conv_input = [1; 3; 32; 32]) by reflexivity.
  assert (Hw : tensors_ conv_loader !! "W"
               = Some (Tensor_reset FloatTy [16; 3; 3; 3])) by reflexivity.
  destruct (@loadOperator_Conv_inferred (example_collaborators opset7_model)
              conv_node conv_loader conv_loader
              (set_nodeByName (insert "data" conv_input)
                 (set_variables (fun vs => vs ++ [conv_input]) conv_loader))
              "data" "W" conv_input (Tensor_reset FloatTy [16; 3; 3; 3])
              Htype eq_refl eq_refl eq_refl eq_refl
              (fun a => empty_dict_absent "auto_pad" a _)
              (fun a => empty_dict_absent "group" a _)
              eq_refl eq_refl eq_refl Hdims eq_refl eq_refl)
    as (wtag & biasTensor & group & s' & Hrun & _ & Hwtag & Hbias & Hgroup
        & HG & _ & _ & Hout & _ & _ & HN).
  rewrite (Hbias ltac:(simpl; lia)), (Hgroup eq_refl) in *.
  refine (conj Htype (conj Hdict (conj Hdims (conj Hw _)))).
  exists wtag, s'.
  refine (conj Hrun (conj Hwtag (conj HG (conj (Hout "conv1_out" _) HN)))).
  apply list_elem_of_singleton. reflexivity.
Defined.

(** C8.  A MaxPool node that carries a [global_pooling] attribute is
    lowered to a max-pool whose kernel is the spatial extent of its input
    (the last dimension of the channel-first input, which is the width of
    the transposed one), whatever value the [kernel_shape] attribute
    supplies; the stride is read as usual and defaults to 1, and the pads
    are those of [getPads]. *)
Theorem loadOperator_MaxPool_global `{Collaborators} (op : NodeProto)
    (s s0 s1 : Loader) (in0 : string) (inN : Node) (a g : AttributeProto)
    (k stride : Z) (pads : list Z) (n c h w : Z) :
  let dict := loadArgumentMap op in
  let opName := loadOperatorName op in
  op_type op = "MaxPool" ->
  tryLoadCommonOperator "MaxPool" op dict s = Ok (false, s0) ->
  input op !! 0%nat = Some in0 ->
  getOrCreateVariableByName in0 s0 = Ok (inN, s1) ->
  Node_dims inN = [n; c; h; w] ->
  dict !! "global_pooling" = Some g ->
  dict !! "kernel_shape" = Some a ->
  getConstantArrayHead a = Ok k ->
  loadStride dict = Ok stride ->
  getPads dict = Ok pads ->
  exists s',
    let tr := TransposeNode opName inN NCHW2NHWC in
    let pool := PoolMaxNode opName tr w stride pads in
    let N := TransposeNode opName pool NHWC2NCHW in
    loadOperator op s = Ok (true, s') /\
    Node_dims tr = [n; h; w; c] /\
    G_ s' = G_ s1 ++ [tr; pool; N] /\
    (forall o, o ∈ output op -> nodeByName_ s' !! o = Some N) /\
    (dict !! "strides" = None -> stride = 1).
Proof.
  intros dict opName Htype Hcommon Hin0 Hin Hdims Hglobal Hkernel Hk
    Hstride Hpads.
  destruct (dict_count_Some dict _ _ Hglobal) as [Hgc _].
  destruct (dict_count_Some dict _ _ Hkernel) as [_ Hka].
  eexists. split; [|split; [|split; [|split]]].
  - unfold loadOperator. fold dict. rewrite Htype.
    step_with Hcommon.
    do 2 skip_branch. rewrite decide_True by (by left).
    unfold loadPool.
    step_liftR in0.
    step_with Hin.
    step_liftR stride by done.
    step_liftR (to_size_t k) by (rewrite Hka; simpl; by rewrite Hk).
    step_liftR pads by done.
    step_run.
    rewrite Hgc, Hdims.
    step_liftR w by done.
    rewrite decide_True by done.
    step_run. step_run. step_run.
    reflexivity.
  - simpl. by rewrite Hdims.
  - simpl. by rewrite <- !app_assoc.
  - intros o Ho. simpl. by apply foldl_insert_lookup.
  - intros Hs. rewrite (loadStride_default dict Hs) in Hstride. congruence.
Qed.

Lemma loadOperator_MaxPool_global_witness :
  op_type global_maxpool_node = "MaxPool" /\
  loadArgumentMap global_maxpool_node !! "kernel_shape"
    = Some (attr "kernel_shape" (AInts [3; 3])) /\
  Node_dims pool_input = [1; 64; 7; 7] /\
  exists s',
    let tr := TransposeNode "pool" pool_input NCHW2NHWC in
    let pool := PoolMaxNode "pool" tr 7 1 [0; 0; 0; 0] in
    let N := TransposeNode "pool" pool NHWC2NCHW in
    @loadOperator (example_collaborators opset7_model) global_maxpool_node
      pool_loader = Ok (true, s') /\
    Node_dims tr = [1; 7; 7; 64] /\
    G_ s' = [tr; pool; N] /\
    nodeByName_ s' !! "pool_out" = Some N.
Proof.
  assert (Htype : op_type global_maxpool_node = "MaxPool") by reflexivity.
  assert (Hk : loadArgumentMap global_maxpool_node !! "kernel_shape"
               = Some (attr "kernel_shape" (AInts [3; 3]))) by reflexivity.
  assert (Hdims : Node_dims pool_input = [1; 64; 7; 7]) by reflexivity.
  destruct (@loadOperator_MaxPool_global (example_collaborators opset7_model)
              global_maxpool_node pool_loader pool_loader pool_loader
              "data7" pool_input
              (attr "kernel_shape" (AInts [3; 3]))
              (attr "global_pooling" (AInt 1))
              3 1 [0; 0; 0; 0] 1 64 7 7
              Htype eq_refl eq_refl eq_refl Hdims eq_refl Hk eq_refl
              eq_refl eq_refl)
    as (s' & Hrun & Htr & HG & Hout & _).
  refine (conj Htype (conj Hk (conj Hdims _))).
  exists s'.
  refine (conj Hrun (conj Htr (conj HG (Hout "pool_out" _)))).
  apply list_elem_of_singleton. reflexivity.
Defined.

(** C10.  A MaxPool or AveragePool node is lowered by reading
    [kernel_shape] before [global_pooling] is consulted.  Without a
    [kernel_shape] attribute the lowering never succeeds, with or without
    [global_pooling]: once the input and the stride are read it stops at
    the missing-attribute access and no pool is created. *)
Theorem loadOperator_Pool_needs_kernel_shape `{Collaborators} (op : NodeProto)
    (s s0 : Loader) :
  let dict := loadArgumentMap op in
  op_type op = "MaxPool" \/ op_type op = "AveragePool" ->
  tryLoadCommonOperator (op_type op) op dict s = Ok (false, s0) ->
  dict !! "kernel_shape" = None ->
  is_Err (loadOperator op s) /\
  (forall in0 inN s1 stride,
     input op !! 0%nat = Some in0 ->
     getOrCreateVariableByName in0 s0 = Ok (inN, s1) ->
     loadStride dict = Ok stride ->
     loadOperator op s
       = Err (Fail UsageError "missing attribute: kernel_shape")).
Proof.
  intros dict Htype Hcommon Hkernel.
  assert (Hrun : loadOperator op s = loadPool (op_type op) op dict
                                       (loadOperatorName op) s0).
  { unfold loadOperator. fold dict. step_with Hcommon.
    destruct Htype as [Ht|Ht]; rewrite Ht.
    - do 2 skip_branch. by rewrite decide_True by (by left).
    - do 2 skip_branch. by rewrite decide_True by (by right). }
  assert (Hmiss : forall (f : Z -> LM bool) s1,
            (liftR (a ← dict_at dict "kernel_shape";
                    k ← getConstantArrayHead a; Ok (to_size_t k)) ≫= f) s1
            = Err (Fail UsageError "missing attribute: kernel_shape")).
  { intros f s1. apply LM_bind_liftR_Err. unfold dict_at. by rewrite Hkernel. }
  rewrite Hrun. unfold loadPool. split.
  - destruct (repeated_at (input op) 0) as [in0|e] eqn:E0.
    2:{ erewrite LM_bind_liftR_Err by done. by eexists. }
    step_liftR in0 by done.
    destruct (getOrCreateVariableByName in0 s0) as [[inN s1]|e] eqn:E1.
    2:{ erewrite LM_bind_Err by done. by eexists. }
    step_with E1.
    destruct (loadStride dict) as [stride|e] eqn:E2.
    2:{ erewrite LM_bind_liftR_Err by done. by eexists. }
    step_liftR stride by done.
    rewrite Hmiss. by eexists.
  - intros in0 inN s1 stride Hin0 Hin Hstride.
    step_liftR in0. step_with Hin. step_liftR stride by done.
    apply Hmiss.
Qed.

Lemma loadOperator_Pool_needs_kernel_shape_witness :
  (op_type global_maxpool_no_kernel = "MaxPool"
   \/ op_type global_maxpool_no_kernel = "AveragePool") /\
  loadArgumentMap global_maxpool_no_kernel !! "kernel_shape" = None /\
  loadArgumentMap global_maxpool_no_kernel !! "global_pooling"
    = Some (attr "global_pooling" (AInt 1)) /\
  @loadOperator (example_collaborators opset7_model) global_maxpool_no_kernel
    pool_loader = Err (Fail UsageError "missing attribute: kernel_shape").
Proof.
  assert (Htype : op_type global_maxpool_no_kernel = "MaxPool"
                  \/ op_type global_maxpool_no_kernel = "AveragePool")
    by (left; reflexivity).
  assert (Hk : loadArgumentMap global_maxpool_no_kernel !! "kernel_shape" = None)
    by reflexivity.
  refine (conj Htype (conj Hk (conj eq_refl _))).
  exact (proj2 (@loadOperator_Pool_needs_kernel_shape
                  (example_collaborators opset7_model)
                  global_maxpool_no_kernel pool_loader pool_loader
                  Htype eq_refl Hk)
           "data7" pool_input pool_loader 1 eq_refl eq_refl eq_refl).
Defined.

(** ** Unsupported operators *)

Lemma keeps_bind {A B} (m : LM A) (f : A -> LM B) :
  keeps_outputs m -> (forall a, keeps_outputs (f a)) -> keeps_outputs (m ≫= f).
Proof.
  intros Hm Hf s b s' Hrun.
  apply LM_bind_inv in Hrun as (a & s1 & H1 & H2).
  rewrite (Hf a _ _ _ H2). by apply (Hm _ _ _ H1).
Qed.

Lemma keeps_mret {A} (a : A) : keeps_outputs (mret a).
Proof. by intros s a' s' [= _ <-]. Qed.

Lemma keeps_liftR {A} (r : Result A) : keeps_outputs (liftR r).
Proof. intros s a s'. destruct r; [|done]. by intros [= _ <-]. Qed.

Lemma keeps_gets {A} (f : Loader -> A) : keeps_outputs (gets f).
Proof. by intros s a s' [= _ <-]. Qed.

Lemma keeps_modify (f : Loader -> Loader) :
  (forall s, outputsByName_ (f s) = outputsByName_ s) -> keeps_outputs (modify f).
Proof. intros Hf s a s' [= _ <-]. apply Hf. Qed.

Lemma keeps_getTensorByName name : keeps_outputs (getTensorByName name).
Proof.
  intros s a s'. unfold getTensorByName.
  destruct (tensors_ s !! name); [|done]. by intros [= _ <-].
Qed.

Lemma keeps_createVariable name T : keeps_outputs (createVariable name T).
Proof. by intros s a s' [= _ <-]. Qed.

Lemma keeps_addNode N : keeps_outputs (addNode N).
Proof. by intros s a s' [= _ <-]. Qed.

Create HintDb keeps.

#[local] Hint Resolve keeps_mret keeps_liftR keeps_gets keeps_getTensorByName
  keeps_createVariable keeps_addNode : keeps.

Ltac keeps_step :=
  match goal with
  | |- keeps_outputs (_ ≫= _) => apply keeps_bind; [|intros ?]
  | |- keeps_outputs (if ?b then _ else _) => destruct b
  | |- keeps_outputs (match ?x with _ => _ end) => destruct x
  | |- keeps_outputs (modify _) => apply keeps_modify; intros ?; reflexivity
  | |- keeps_outputs _ => solve [auto with keeps]
  end.

Ltac keeps := repeat keeps_step.

Lemma keeps_getOrCreateVariableByName name :
  keeps_outputs (getOrCreateVariableByName name).
Proof.
  intros s a s'. unfold getOrCreateVariableByName.
  destruct (nodeByName_ s !! name); [by intros [= _ <-]|].
  revert s a s'.
  change (keeps_outputs (T ← getTensorByName name;
                         V ← createVariable name T;
                         _ ← modify (set_nodeByName (insert name V));
                         mret V)).
  keeps.
Qed.

Lemma keeps_addNodeAsOutput op R : keeps_outputs (addNodeAsOutput op R).
Proof. unfold addNodeAsOutput. keeps. Qed.

#[local] Hint Resolve keeps_getOrCreateVariableByName keeps_addNodeAsOutput : keeps.

Lemma keeps_loadInputsOf names : keeps_outputs (loadInputsOf names).
Proof. induction names; simpl; keeps. Qed.

Lemma keeps_getBroadcast dict : keeps_outputs (getBroadcast dict).
Proof. unfold getBroadcast. keeps. Qed.

Lemma keeps_loadBias op depth : keeps_outputs (loadBias op depth).
Proof. unfold loadBias. keeps. Qed.

#[local] Hint Resolve keeps_loadInputsOf keeps_getBroadcast keeps_loadBias : keeps.

Lemma keeps_setVersion MP : keeps_outputs (setVersion MP).
Proof. unfold setVersion. keeps. Qed.

Lemma keeps_loadInitializers net : keeps_outputs (loadInitializers net).
Proof.
  unfold loadInitializers. induction (initializer net); simpl; keeps.
Qed.

Section UnsupportedOperator.
Context `{Collaborators}.

(** The parent class lowers operators; it binds no graph output. *)
Hypothesis common_keeps_outputs :
  forall typeName op dict, keeps_outputs (tryLoadCommonOperator typeName op dict).

Lemma keeps_loadOperator op : keeps_outputs (loadOperator op).
Proof.
  unfold loadOperator, loadConstant, loadConv, loadPool,
    loadGlobalAveragePool, loadSqueeze, loadDropout, loadBatchNormalization,
    loadConcat, loadGemm, loadTranspose.
  apply keeps_bind; [apply common_keeps_outputs|].
  intros common. keeps.
Qed.

Lemma keeps_loadNetwork_loop nodes : keeps_outputs (loadNetwork_loop nodes).
Proof.
  induction nodes as [|op rest IH]; simpl; [keeps|].
  apply keeps_bind; [apply keeps_loadOperator|].
  intros ok. unfold unexpectedNodeError. keeps.
Qed.

Lemma keeps_loadProto_file filename : keeps_outputs (loadProto_file filename).
Proof.
  unfold loadProto_file, loadProto_stream.
  destruct (openFile filename); [|keeps].
  destruct (ParseFromCodedStream _).
  apply keeps_bind; [apply keeps_setVersion|]. intros _. keeps.
Qed.
End UnsupportedOperator.

Ltac in_table :=
  apply list_elem_of_In; unfold importer_operators; simpl; tauto.

(** A node neither the parent class nor the importer's own dispatch
    recognises is reported as unrecognised, and nothing is lowered. *)
Lemma loadOperator_unrecognised `{Collaborators} (op : NodeProto) (s s' : Loader) :
  tryLoadCommonOperator (op_type op) op (loadArgumentMap op) s = Ok (false, s') ->
  op_type op ∉ importer_operators ->
  loadOperator op s = Ok (false, s').
Proof.
  intros Hcommon Hnot.
  assert (Hne : forall t, t ∈ importer_operators -> op_type op <> t).
  { intros t Ht Heq. apply Hnot. by rewrite Heq. }
  unfold loadOperator. step_with Hcommon.
  rewrite decide_False by (apply Hne; in_table).
  rewrite decide_False by (apply Hne; in_table).
  rewrite decide_False
    by (intros [?|?]; eapply Hne; [|eassumption| |eassumption]; in_table).
  repeat (rewrite decide_False by (apply Hne; in_table)).
  reflexivity.
Qed.

(** Nodes are lowered in order: after a prefix that was lowered the loop
    continues with the rest from the state the prefix left. *)
Lemma loadNetwork_loop_app `{Collaborators} (pre : list NodeProto) :
  forall rest s s1,
    loadNetwork_loop pre s = Ok (true, s1) ->
    loadNetwork_loop (pre ++ rest) s = loadNetwork_loop rest s1.
Proof.
  induction pre as [|op pre IH]; intros rest s s1 Hpre; simpl in *.
  - by injection Hpre as <-.
  - apply LM_bind_inv in Hpre as (ok & s0 & Hop & Hrest).
    step_with Hop. destruct ok.
    + by apply IH.
    + apply LM_bind_inv in Hrest as (? & ? & _ & [=]).
Qed.

(** C5.  A model with a node whose operator type is not in the lowering
    table: when the nodes before it have been lowered and the loop reaches
    it, [loadOperator] returns false, [loadNetwork] reports
    "Unsupported operator." together with that node (its type and name) and
    returns false without looking at the nodes after it, and the
    constructor ends there without binding any graph output. *)
Theorem load_unsupported_operator `{Collaborators}
    (modelDescFilename : string) (tensorNames : list string)
    (tensors : list Tensor) (F : list Node) (parsed : bool) (net : GraphProto)
    (l0 sA sB s1 s2 : Loader) (pre post : list NodeProto) (op : NodeProto) :
  (forall typeName op dict,
      keeps_outputs (tryLoadCommonOperator typeName op dict)) ->
  ProtobufLoader tensorNames tensors F = Ok l0 ->
  loadProto_file modelDescFilename l0 = Ok ((parsed, net), sA) ->
  loadInitializers net sA = Ok (tt, sB) ->
  node net = pre ++ op :: post ->
  loadNetwork_loop pre sB = Ok (true, s1) ->
  tryLoadCommonOperator (op_type op) op (loadArgumentMap op) s1 = Ok (false, s2) ->
  op_type op ∉ importer_operators ->
  let s' := set_diagnostics (fun d => d ++ [("Unsupported operator.", op)]) s2 in
  loadOperator op s1 = Ok (false, s2) /\
  loadNetwork net sB = Ok (false, s') /\
  last (diagnostics_ s') = Some ("Unsupported operator.", op) /\
  ONNXModelLoader modelDescFilename tensorNames tensors F = Ok s' /\
  outputsByName_ s' = ∅.
Proof.
  intros Hkeeps Hl0 Hproto Hinit Hnodes Hpre Hcommon Hnot s'.
  assert (Hop : loadOperator op s1 = Ok (false, s2))
    by by apply loadOperator_unrecognised.
  assert (Hnet : loadNetwork net sB = Ok (false, s')).
  { unfold loadNetwork. rewrite Hnodes.
    rewrite (loadNetwork_loop_app pre _ _ _ Hpre). simpl.
    step_with Hop. reflexivity. }
  split; [exact Hop|]. split; [exact Hnet|].
  split; [simpl; apply last_snoc|]. split.
  - unfold ONNXModelLoader. rewrite Hl0. simpl.
    unfold ONNXModelLoader_steps.
    step_with Hproto. step_with Hinit. step_with Hnet. reflexivity.
  - simpl.
    rewrite (Hkeeps _ _ _ _ _ _ Hcommon).
    rewrite (keeps_loadNetwork_loop Hkeeps _ _ _ _ Hpre).
    rewrite (keeps_loadInitializers _ _ _ _ Hinit).
    rewrite (keeps_loadProto_file _ _ _ _ Hproto).
    unfold ProtobufLoader, assert in Hl0.
    destruct (bool_decide _); [|done]. by injection Hl0 as <-.
Qed.

Lemma load_unsupported_operator_witness :
  (op_type foo_node ∉ importer_operators) /\
  node (graph foo_model) = [dropout_node] ++ foo_node :: [after_foo_node] /\
  exists s',
    @ONNXModelLoader (example_collaborators foo_model)
       "model.onnx" ["X"] [caller_X] [] = Ok s' /\
    @loadNetwork (example_collaborators foo_model) (graph foo_model)
       (set_tensors (insert "X"
            {| elemKind := FloatTy; t_dims := [2];
               t_data := [1065353216; 1073741824] |})
          (set_versions 3 7
             (set_tensors (insert "X" caller_X) empty_loader))) = Ok (false, s') /\
    diagnostics_ s' = [("Unsupported operator.", foo_node)] /\
    outputsByName_ s' = ∅ /\
    nodeByName_ s' !! "Z" = None.
Proof.
  assert (Hnot : op_type foo_node ∉ importer_operators).
  { unfold importer_operators. simpl. intros Hin.
    repeat (apply elem_of_cons in Hin as [Heq|Hin]; [discriminate Heq|]).
    by apply elem_of_nil in Hin. }
  assert (Hnodes : node (graph foo_model)
                   = [dropout_node] ++ foo_node :: [after_foo_node]) by reflexivity.
  refine (conj Hnot (conj Hnodes _)).
  destruct (@load_unsupported_operator (example_collaborators foo_model)
              "model.onnx" ["X"] [caller_X] [] true (graph foo_model)
              (set_tensors (insert "X" caller_X) empty_loader)
              (set_versions 3 7 (set_tensors (insert "X" caller_X) empty_loader))
              (set_tensors (insert "X"
                   {| elemKind := FloatTy; t_dims := [2];
                      t_data := [1065353216; 1073741824] |})
                 (set_versions 3 7
                    (set_tensors (insert "X" caller_X) empty_loader)))
              _ _ [dropout_node] [after_foo_node] foo_node
              (fun _ _ _ => keeps_mret false)
              eq_refl eq_refl eq_refl Hnodes eq_refl eq_refl Hnot)
    as (_ & Hnet & _ & Hload & Hout).
  eexists.
  refine (conj Hload (conj Hnet (conj _ (conj Hout _)))); reflexivity.
Defined.

(** * Further properties of the importer *)

(** ** Keyed tables built by insertion *)

(** A table filled by inserting the entries of a list in order holds, under
    each key, the value of the last entry with that key, and what it held
    before under the keys no entry has. *)
Lemma foldl_insert_last {A V} (key : A -> string) (val : A -> V) (l : list A) :
  forall (m : gmap string V) k,
    foldl (fun m a => <[key a := val a]> m) m l !! k =
      match last (filter (fun a => key a = k) l) with
      | Some a => Some (val a)
      | None => m !! k
      end.
Proof.
  induction l as [|a l IH]; intros m k; simpl; [done|].
  rewrite IH, filter_cons. destruct (decide (key a = k)) as [Heq|Hne].
  - rewrite <- Heq, lookup_insert_eq.
    destruct (filter (fun a0 => key a0 = key a) l) as [|b fl] eqn:E; [done|].
    rewrite last_cons_cons.
    destruct (last (b :: fl)) eqn:El; [done|]. by apply last_None in El.
  - by rewrite lookup_insert_ne.
Qed.

(** X1.  The attribute dictionary of a node holds, under each name, the
    last attribute of the node with that name, and nothing under a name no
    attribute has. *)
Theorem loadArgumentMap_lookup (op : NodeProto) (k : string) :
  loadArgumentMap op !! k
    = last (filter (fun a => attr_name a = k) (attribute op)).
Proof.
  unfold loadArgumentMap.
  rewrite (foldl_insert_last attr_name id). rewrite lookup_empty.
  by destruct (last _).
Qed.

(** X2.  The version loop stops at the first import without a namespace:
    when that import's version is not positive the version check fails,
    whatever imports follow it. *)
Theorem setVersion_first_import_decides (MP : ModelProto) (s : Loader)
    (pre post : list OperatorSetIdProto) (imp : OperatorSetIdProto) :
  opset_import MP = pre ++ imp :: post ->
  Forall (fun i => ~ unnamespaced i) pre ->
  unnamespaced imp ->
  version imp <= 0 ->
  exists msg, setVersion MP s = Err (Fail VersionError msg).
Proof.
  intros Himps Hpre Himp Hv. rewrite setVersion_run, Himps.
  rewrite firstDefaultOpset_first by done. simpl.
  rewrite (proj2 (Z.ltb_ge _ _) Hv).
  destruct (3 <=? ir_version MP); by eexists.
Qed.

Lemma setVersion_first_import_decides_witness :
  opset_import zero_first_model
    = [ {| domain := Some "ai.onnx.ml"; version := 2 |} ]
      ++ {| domain := Some ""; version := 0 |}
      :: [ {| domain := None; version := 7 |} ] /\
  exists msg, setVersion zero_first_model empty_loader
              = Err (Fail VersionError msg).
Proof.
  split; [reflexivity|].
  apply (setVersion_first_import_decides zero_first_model empty_loader
           [ {| domain := Some "ai.onnx.ml"; version := 2 |} ]
           [ {| domain := None; version := 7 |} ]
           {| domain := Some ""; version := 0 |} eq_refl).
  - constructor; [|constructor]. intros [H|H]; discriminate H.
  - right. reflexivity.
  - simpl. lia.
Defined.

(** ** Seeding the tensor table *)

Section Seeding.
Context {A : Type} (load : A -> Result Tensor) (key : A -> string)
  (loop : list A -> LM unit).
Hypothesis loop_nil : loop [] = mret tt.
Hypothesis loop_cons : forall i rest,
  loop (i :: rest)
    = (T ← liftR (load i); _ ← modify (set_tensors (insert (key i) T)); loop rest).

(** When every record loads, the loop touches the tensor table only, and
    leaves under each key the tensor of the last record with that key. *)
Lemma seeding_run (l : list A) : forall s,
  Forall (fun i => is_Ok (load i)) l ->
  exists s', loop l s = Ok (tt, s') /\
    s' = set_tensors (fun _ => tensors_ s') s /\
    forall k, tensors_ s' !! k =
      match last (filter (fun i => key i = k) l) with
      | Some i => match load i with Ok T => Some T | Err _ => None end
      | None => tensors_ s !! k
      end.
Proof.
  induction l as [|i l IH]; intros s Hall.
  - rewrite loop_nil. exists s. split; [done|]. split; [by destruct s|done].
  - inversion Hall as [|? ? [T HT] Hrest]; subst.
    destruct (IH (set_tensors (insert (key i) T) s) Hrest)
      as (s' & Hrun & Hframe & Hlook).
    exists s'. rewrite loop_cons. step_liftR T by done. step_run.
    split; [exact Hrun|]. split; [by rewrite Hframe at 1|].
    intros k. rewrite Hlook, filter_cons. simpl.
    destruct (decide (key i = k)) as [Heq|Hne].
    + destruct (filter (fun i0 => key i0 = k) l) as [|b fl] eqn:E.
      * simpl. rewrite HT, <- Heq. apply lookup_insert_eq.
      * rewrite last_cons_cons.
        destruct (last (b :: fl)) eqn:El; [done|]. by apply last_None in El.
    + destruct (last _); [done|]. by apply lookup_insert_ne.
Qed.

(** A record that does not load makes the loop fail. *)
Lemma seeding_fail (l : list A) : forall s,
  Exists (fun i => is_Err (load i)) l -> is_Err (loop l s).
Proof.
  induction l as [|i l IH]; intros s Hex; [by inversion Hex|].
  rewrite loop_cons. destruct (load i) as [T|e] eqn:Hi.
  - step_liftR T by done. step_run. apply IH.
    inversion Hex as [? ? [e He]|]; subst; [congruence|done].
  - erewrite LM_bind_liftR_Err by done. by eexists.
Qed.
End Seeding.

Lemma loadShape_supported (e : DataType) (shape : list Z) :
  e = FLOAT \/ e = INT64 ->
  loadShape (tensor_type e shape)
    = Ok (Tensor_reset (if decide (e = FLOAT) then FloatTy else IndexTy)
            (to_size_t <$> shape)).
Proof.
  intros [->| ->]; reflexivity.
Qed.

Lemma loadShape_unsupported (e : DataType) (shape : list Z) :
  e <> FLOAT -> e <> INT64 -> is_Err (loadShape (tensor_type e shape)).
Proof. intros Hf Hi. simpl. rewrite !decide_False by done. by eexists. Qed.

(** X3.  [loadInputs] with float and int64 inputs only changes nothing but
    the tensor table, where every declared name then holds a zero-filled
    tensor of the kind and shape of its last declaration, in place of
    whatever the table held under that name before; names that are not
    declared keep their entries.  An input of any other element type makes
    it fail. *)
Theorem loadInputs_seeds (net : GraphProto) (s : Loader) :
  (Forall (fun i => match vi_type i with
                    | tensor_type e _ => e = FLOAT \/ e = INT64
                    end) (graph_input net) ->
   exists s', loadInputs net s = Ok (tt, s') /\
     s' = set_tensors (fun _ => tensors_ s') s /\
     forall k, tensors_ s' !! k =
       match last (filter (fun i => vi_name i = k) (graph_input net)) with
       | Some {| vi_type := tensor_type e shape |} =>
           Some (Tensor_reset (if decide (e = FLOAT) then FloatTy else IndexTy)
                   (to_size_t <$> shape))
       | None => tensors_ s !! k
       end) /\
  (Exists (fun i => match vi_type i with
                    | tensor_type e _ => e <> FLOAT /\ e <> INT64
                    end) (graph_input net) ->
   is_Err (loadInputs net s)).
Proof.
  unfold loadInputs. split.
  - intros Hall.
    destruct (seeding_run (fun i => loadShape (vi_type i)) vi_name
                loadInputs_loop eq_refl (fun _ _ => eq_refl)
                (graph_input net) s) as (s' & Hrun & Hframe & Hlook).
    { eapply Forall_impl; [exact Hall|]. intros [nm [e shape]] He.
      eexists. by apply loadShape_supported. }
    exists s'. split; [done|]. split; [done|].
    intros k. rewrite Hlook.
    destruct (last _) as [[nm [e shape]]|] eqn:El; [|done].
    apply last_Some_elem_of, list_elem_of_filter in El as [_ Hin].
    rewrite Forall_forall in Hall. specialize (Hall _ Hin). simpl in Hall.
    cbn [vi_type]. by rewrite loadShape_supported.
  - intros Hex.
    apply (seeding_fail (fun i => loadShape (vi_type i)) vi_name
             loadInputs_loop (fun _ _ => eq_refl)).
    eapply Exists_impl; [exact Hex|]. intros [nm [e shape]] [Hf Hi].
    by apply loadShape_unsupported.
Qed.

Lemma loadInputs_seeds_witness :
  exists s', loadInputs declared_inputs prebound_loader = Ok (tt, s') /\
    tensors_ s' !! "X" = Some (Tensor_reset FloatTy [1; 2]) /\
    tensors_ s' !! "idx" = Some (Tensor_reset IndexTy [1]) /\
    tensors_ prebound_loader !! "X" = Some caller_X.
Proof.
  destruct (proj1 (loadInputs_seeds declared_inputs prebound_loader))
    as (s' & Hrun & _ & Hlook).
  { simpl. repeat (constructor; [simpl; auto|]). constructor. }
  exists s'. split; [exact Hrun|].
  split; [exact (Hlook "X")|]. split; [exact (Hlook "idx")|reflexivity].
Defined.



(** ** Binding the outputs *)

(** The save node bound to an output name. *)
Lemma setOutputNodes_loop_run (outputs : list ValueInfoProto) : forall s,
  (forall o, o ∈ outputs -> is_Some (nodeByName_ s !! vi_name o)) ->
  exists s', setOutputNodes_loop outputs s = Ok (tt, s') /\
    nodeByName_ s' = nodeByName_ s /\
    tensors_ s' = tensors_ s /\
    G_ s' = G_ s ++ omap (fun o => SaveNode ("save_" +:+ vi_name o)
                                     <$> nodeByName_ s !! vi_name o) outputs /\
    forall k, outputsByName_ s' !! k =
      if decide (k ∈ vi_name <$> outputs)
      then SaveNode ("save_" +:+ k) <$> nodeByName_ s !! k
      else outputsByName_ s !! k.
Proof.
  induction outputs as [|o outputs IH]; intros s Hall.
  - exists s. simpl. rewrite app_nil_r. by do 4 (split; [done|]).
  - cbn [setOutputNodes_loop].
    destruct (Hall o) as [r Hr]; [by left|].
    rewrite (LM_bind_Ok _ _ _ r s) by (unfold getNodeByName; by rewrite Hr).
    step_run. step_run.
    edestruct IH as (s' & Hrun & Hnodes & Htensors & HG & Hout);
      [|rewrite Hrun].
    { simpl. intros o' Ho'. apply Hall. by right. }
    simpl in *. exists s'. split; [done|]. split; [done|]. split; [done|].
    split.
    + rewrite HG, Hr. simpl. by rewrite <- app_assoc.
    + intros k. rewrite Hout.
      destruct (decide (k = vi_name o)) as [->|Hne].
      * rewrite (decide_True (P := vi_name o ∈ vi_name o :: _)) by by left.
        rewrite Hr. simpl. case_decide; [done|]. apply lookup_insert_eq.
      * rewrite lookup_insert_ne by done.
        destruct (decide (k ∈ vi_name <$> outputs)) as [Hin|Hnin].
        -- by rewrite decide_True by by right.
        -- rewrite decide_False; [done|].
           intros [?|?]%elem_of_cons; done.
Qed.

Lemma setOutputNodes_loop_unresolved (outputs : list ValueInfoProto) : forall s o,
  o ∈ outputs -> nodeByName_ s !! vi_name o = None ->
  is_Err (setOutputNodes_loop outputs s).
Proof.
  induction outputs as [|o' outputs IH]; intros s o Hin Hnone; simpl.
  - by apply elem_of_nil in Hin.
  - destruct (nodeByName_ s !! vi_name o') as [r|] eqn:Hr.
    + rewrite (LM_bind_Ok _ _ _ r s) by (unfold getNodeByName; by rewrite Hr).
      step_run. step_run.
      apply elem_of_cons in Hin as [->|Hin]; [congruence|].
      by apply (IH _ o).
    + erewrite LM_bind_Err; [by eexists|].
      unfold getNodeByName. by rewrite Hr.
Qed.

(** X5.  [setOutputNodes] succeeds exactly when the graph declares at
    least one output and every declared output names a value bound by the
    lowering.  It then appends one save node per declared output, named
    ["save_"] followed by the output name and reading the value bound under
    that name, binds each output name to its save node, and leaves the
    bound values and the tensor table as they were. *)
Theorem setOutputNodes_spec (net : GraphProto) (s : Loader) :
  (is_Ok (setOutputNodes net s) <->
   graph_output net <> [] /\
   forall o, o ∈ graph_output net -> is_Some (nodeByName_ s !! vi_name o)) /\
  (forall s', setOutputNodes net s = Ok (tt, s') ->
     nodeByName_ s' = nodeByName_ s /\
     tensors_ s' = tensors_ s /\
     G_ s' = G_ s ++ omap (fun o => SaveNode ("save_" +:+ vi_name o)
                                      <$> nodeByName_ s !! vi_name o)
                       (graph_output net) /\
     forall o r, o ∈ graph_output net -> nodeByName_ s !! vi_name o = Some r ->
       outputsByName_ s' !! vi_name o
         = Some (SaveNode ("save_" +:+ vi_name o) r)).
Proof.
  unfold setOutputNodes.
  destruct (graph_output net) as [|o0 outs] eqn:Houts.
  { split; [|intros s' [=]]. split; [intros [? [=]] | by intros [? _]]. }
  rewrite (LM_bind_liftR_Ok _ _ _ tt) by done.
  split.
  - split.
    + intros [[[] s'] Hrun]. split; [done|]. intros o Ho.
      destruct (nodeByName_ s !! vi_name o) eqn:Hr; [done|].
      destruct (setOutputNodes_loop_unresolved _ s o Ho Hr) as [e He].
      congruence.
    + intros [_ Hall].
      destruct (setOutputNodes_loop_run _ s Hall) as (s' & Hrun & _).
      by eexists.
  - intros s' Hrun.
    assert (Hall : forall o, o ∈ o0 :: outs ->
                     is_Some (nodeByName_ s !! vi_name o)).
    { intros o Ho. destruct (nodeByName_ s !! vi_name o) eqn:Hr; [done|].
      destruct (setOutputNodes_loop_unresolved _ s o Ho Hr) as [e He].
      congruence. }
    destruct (setOutputNodes_loop_run _ s Hall)
      as (s'' & Hrun' & Hnodes & Htensors & HG & Hout).
    assert (s'' = s') as -> by congruence.
    split; [done|]. split; [done|]. split; [done|].
    intros o r Ho Hr. rewrite Hout.
    rewrite decide_True by (by apply list_elem_of_fmap_2).
    by rewrite Hr.
Qed.

Lemma setOutputNodes_spec_witness :
  is_Ok (setOutputNodes outputs_Y bound_Y_loader) /\
  ~ is_Ok (setOutputNodes outputs_Y_Q bound_Y_loader) /\
  ~ is_Ok (setOutputNodes empty_graph bound_Y_loader).
Proof.
  split; [|split].
  - apply (proj1 (setOutputNodes_spec outputs_Y bound_Y_loader)).
    split; [discriminate|]. intros o Ho.
    apply list_elem_of_singleton in Ho as ->. by eexists.
  - intros Hok.
    apply (proj1 (setOutputNodes_spec outputs_Y_Q bound_Y_loader)) in Hok
      as [_ Hall].
    destruct (Hall (float_value "Q")) as [r Hr]; [by right; left|].
    discriminate Hr.
  - intros Hok.
    by apply (proj1 (setOutputNodes_spec empty_graph bound_Y_loader)) in Hok
      as [Hne _].
Defined.

(** ** Outcomes of the node loop and of [parse] *)

(** X6.  [loadNetwork] returns false only by stopping at a node that
    [loadOperator] did not recognise, after lowering the nodes before it,
    and then the loader is the one that node left plus the report
    "Unsupported operator." for it.  It fails only with the failure of one
    node's lowering, after lowering the nodes before it. *)
Theorem loadNetwork_outcome `{Collaborators} (net : GraphProto) (s : Loader) :
  (forall s', loadNetwork net s = Ok (false, s') ->
     exists pre op post s1 s2,
       node net = pre ++ op :: post /\
       loadNetwork_loop pre s = Ok (true, s1) /\
       loadOperator op s1 = Ok (false, s2) /\
       s' = set_diagnostics (fun d => d ++ [("Unsupported operator.", op)]) s2) /\
  (forall e, loadNetwork net s = Err e ->
     exists pre op post s1,
       node net = pre ++ op :: post /\
       loadNetwork_loop pre s = Ok (true, s1) /\
       loadOperator op s1 = Err e).
Proof.
  unfold loadNetwork. generalize (node net) as nodes. intros nodes. revert s.
  induction nodes as [|op nodes IH]; intros s.
  { split; [intros s' [=] | intros e [=]]. }
  cbn [loadNetwork_loop].
  destruct (loadOperator op s) as [[[] s1]|e0] eqn:Hop.
  - step_with Hop. destruct (IH s1) as [IHf IHe]. split.
    + intros s' Hrun.
      destruct (IHf s' Hrun) as (pre & op' & post & s2 & s3 & -> & Hpre & Hop' & ->).
      exists (op :: pre), op', post, s2, s3. split; [done|].
      split; [|done]. cbn [loadNetwork_loop]. by step_with Hop.
    + intros e Hrun.
      destruct (IHe e Hrun) as (pre & op' & post & s2 & -> & Hpre & Hop').
      exists (op :: pre), op', post, s2. split; [done|].
      split; [|done]. cbn [loadNetwork_loop]. by step_with Hop.
  - step_with Hop. split.
    + intros s' [= <-]. by exists [], op, nodes, s, s1.
    + intros e [=].
  - rewrite (LM_bind_Err _ _ _ _ Hop). split; [intros s' [=]|].
    intros e [= <-]. by exists [], op, nodes, s.
Qed.

Lemma loadNetwork_outcome_witness :
  exists s' pre op post s1 s2,
    @loadNetwork (example_collaborators foo_model) (graph foo_model)
       prebound_loader = Ok (false, s') /\
    node (graph foo_model) = pre ++ op :: post /\
    @loadNetwork_loop (example_collaborators foo_model) pre prebound_loader
      = Ok (true, s1) /\
    @loadOperator (example_collaborators foo_model) op s1 = Ok (false, s2) /\
    s' = set_diagnostics (fun d => d ++ [("Unsupported operator.", op)]) s2.
Proof.
  eexists.
  assert (Hrun : @loadNetwork (example_collaborators foo_model)
                   (graph foo_model) prebound_loader = Ok (false, _))
    by (vm_compute; reflexivity).
  destruct (proj1 (@loadNetwork_outcome (example_collaborators foo_model)
                     (graph foo_model) prebound_loader) _ Hrun)
    as (pre & op & post & s1 & s2 & H1 & H2 & H3 & H4).
  exists pre, op, post, s1, s2. exact (conj Hrun (conj H1 (conj H2 (conj H3 H4)))).
Defined.

Lemma keeps_loadInputs net : keeps_outputs (loadInputs net).
Proof.
  unfold loadInputs. induction (graph_input net); simpl; keeps.
Qed.

Lemma keeps_loadProto_stream `{Collaborators} iStream :
  keeps_outputs (loadProto_stream iStream).
Proof.
  unfold loadProto_stream. destruct (ParseFromCodedStream iStream).
  apply keeps_bind; [apply keeps_setVersion|]. intros _. keeps.
Qed.

(** X7.  [parse] returns a loader only when the model decoded, and that
    loader has no graph output bound: the embedding entry point seeds the
    inputs and lowers the nodes, and leaves the outputs to its caller.
    When decoding reports failure [parse] returns the null loader or fails
    in the version check. *)
Theorem parse_outcome `{Collaborators} (onnxModel : list Z) (F : list Node) :
  (forall typeName op dict,
      keeps_outputs (tryLoadCommonOperator typeName op dict)) ->
  (forall l, parse onnxModel F = Ok (Some l) ->
     (ParseFromCodedStream onnxModel).1 = true /\ outputsByName_ l = ∅) /\
  ((ParseFromCodedStream onnxModel).1 = false ->
     parse onnxModel F = Ok None \/
     exists msg, parse onnxModel F = Err (Fail VersionError msg)).
Proof.
  intros Hkeeps. unfold parse. simpl. unfold parse_steps, loadProto_array.
  set (l0 := {| G_ := F; variables_ := []; tensors_ := ∅; nodeByName_ := ∅;
                outputsByName_ := ∅; irVersion_ := 0; opsetVersion_ := 0;
                diagnostics_ := [] |}).
  destruct (loadProto_stream onnxModel l0) as [[[parsed net] sA]|e] eqn:Hproto.
  - assert (parsed = (ParseFromCodedStream onnxModel).1) as Hparsed.
    { unfold loadProto_stream in Hproto.
      destruct (ParseFromCodedStream onnxModel) as [b MP].
      apply LM_bind_inv in Hproto as (? & ? & _ & [= <- _ _]). done. }
    step_with Hproto. split.
    + intros l Hl. destruct parsed; [|done]. split; [done|].
      destruct (loadInputs net sA) as [[[] sB]|e] eqn:Hin.
      2:{ by rewrite (LM_bind_Err _ _ _ _ Hin) in Hl. }
      rewrite (LM_bind_Ok _ _ _ _ _ Hin) in Hl.
      destruct (loadNetwork net sB) as [[[] sC]|e] eqn:Hnet; [|done..].
      injection Hl as <-.
      rewrite (keeps_loadNetwork_loop Hkeeps _ _ _ _ Hnet).
      rewrite (keeps_loadInputs _ _ _ _ Hin).
      by rewrite (keeps_loadProto_stream _ _ _ _ Hproto).
    + intros Hfalse. rewrite Hfalse in Hparsed. subst parsed. by left.
  - rewrite (LM_bind_Err _ _ _ _ Hproto). split; [done|].
    intros _. right.
    unfold loadProto_stream in Hproto.
    destruct (ParseFromCodedStream onnxModel) as [b MP].
    destruct (setVersion MP l0) as [[[] s1]|e1] eqn:Hv.
    { by rewrite (LM_bind_Ok _ _ _ _ _ Hv) in Hproto. }
    rewrite (LM_bind_Err _ _ _ _ Hv) in Hproto. injection Hproto as <-.
    rewrite setVersion_run in Hv.
    destruct (3 <=? ir_version MP); [|injection Hv as <-; by eexists].
    simpl in Hv. destruct (0 <? _); [done|]. injection Hv as <-. by eexists.
Qed.

Lemma parse_outcome_witness :
  exists l, @parse (example_collaborators declared_X_model) [] [] = Ok (Some l) /\
    outputsByName_ l = ∅ /\
    tensors_ l !! "X" = Some (Tensor_reset FloatTy [2]) /\
    nodeByName_ l !! "Y" = Some (VariableNode "X" (Tensor_reset FloatTy [2])).
Proof.
  eexists.
  assert (Hrun : @parse (example_collaborators declared_X_model) [] []
                 = Ok (Some _)) by (vm_compute; reflexivity).
  split; [exact Hrun|]. split; [|split; reflexivity].
  exact (proj2 (proj1 (@parse_outcome (example_collaborators declared_X_model)
                         [] [] (fun _ _ _ => keeps_mret false)) _ Hrun)).
Defined.

(** ** What lowering keeps *)

Section Respects.
Context `{Collaborators} (R : Loader -> Loader -> Prop) `{!PreOrder R}.

Hypothesis R_variables : forall f s, R s (set_variables (fun vs => vs ++ f) s).
Hypothesis R_G : forall f s, R s (set_G (fun g => g ++ f) s).
Hypothesis R_nodeByName : forall f s, R s (set_nodeByName f s).
Hypothesis R_diagnostics : forall f s, R s (set_diagnostics f s).
Hypothesis R_fresh_tensor : forall name T s,
  tensors_ s !! name = None -> R s (set_tensors (insert name T) s).
Hypothesis R_common : forall typeName op dict,
  respects R (tryLoadCommonOperator typeName op dict).

Lemma respects_bind {A B} (m : LM A) (f : A -> LM B) :
  respects R m -> (forall a, respects R (f a)) -> respects R (m ≫= f).
Proof.
  intros Hm Hf s b s' Hrun.
  apply LM_bind_inv in Hrun as (a & s1 & H1 & H2).
  etransitivity; [by eapply Hm | by eapply Hf].
Qed.

Lemma respects_mret {A} (a : A) : respects R (mret a).
Proof. by intros s a' s' [= _ <-]. Qed.

Lemma respects_liftR {A} (r : Result A) : respects R (liftR r).
Proof. intros s a s'. destruct r; [|done]. by intros [= _ <-]. Qed.

Lemma respects_gets {A} (f : Loader -> A) : respects R (gets f).
Proof. by intros s a s' [= _ <-]. Qed.

Lemma respects_getTensorByName name : respects R (getTensorByName name).
Proof.
  intros s a s'. unfold getTensorByName.
  destruct (tensors_ s !! name); [|done]. by intros [= _ <-].
Qed.

Lemma respects_createVariable name T : respects R (createVariable name T).
Proof. intros s a s' [= _ <-]. apply R_variables. Qed.

Lemma respects_addNode N : respects R (addNode N).
Proof. intros s a s' [= _ <-]. apply R_G. Qed.

Lemma respects_addNodeAsOutput op N : respects R (addNodeAsOutput op N).
Proof. intros s a s' [= _ <-]. apply R_nodeByName. Qed.

Lemma respects_unexpectedNodeError op msg :
  respects R (unexpectedNodeError op msg).
Proof. intros s a s' [= _ <-]. apply R_diagnostics. Qed.

Ltac respects_step :=
  match goal with
  | |- respects _ (_ ≫= _) => apply respects_bind; [|intros ?]
  | |- respects _ (if ?b then _ else _) => destruct b
  | |- respects _ (match ?x with _ => _ end) => destruct x
  | |- respects _ (mret _) => apply respects_mret
  | |- respects _ (liftR _) => apply respects_liftR
  | |- respects _ (gets _) => apply respects_gets
  | |- respects _ (getTensorByName _) => apply respects_getTensorByName
  | |- respects _ (createVariable _ _) => apply respects_createVariable
  | |- respects _ (addNode _) => apply respects_addNode
  | |- respects _ (addNodeAsOutput _ _) => apply respects_addNodeAsOutput
  | |- respects _ _ => assumption
  end.

Lemma respects_getOrCreateVariableByName name :
  respects R (getOrCreateVariableByName name).
Proof.
  intros s a s'. unfold getOrCreateVariableByName.
  destruct (nodeByName_ s !! name); [by intros [= _ <-]|].
  revert s a s'.
  change (respects R (T ← getTensorByName name;
                      V ← createVariable name T;
                      _ ← modify (set_nodeByName (insert name V));
                      mret V)).
  repeat respects_step.
  intros s u s' [= _ <-]. apply R_nodeByName.
Qed.

Lemma respects_loadInputsOf names : respects R (loadInputsOf names).
Proof.
  induction names; simpl; repeat respects_step.
  apply respects_getOrCreateVariableByName.
Qed.

(** The Constant branch writes the table only under a name it has no
    entry for. *)
Lemma respects_loadConstant op dict : respects R (loadConstant op dict).
Proof.
  intros s u s'.
  unfold loadConstant, mbind, LM_bind, liftR, gets, modify, mret, LM_ret.
  destruct (repeated_at (output op) 0) as [name|e]; [|done].
  destruct (tensors_ s !! name) as [T0|] eqn:Hpresent.
  { rewrite bool_decide_eq_true_2 by done. by intros [= _ <-]. }
  rewrite bool_decide_eq_false_2 by by intros [? ?].
  destruct (dict_at dict "value") as [v|e]; [|done].
  destruct (attr_value v); try done.
  destruct (loadTensor t) as [T|e]; [|done].
  intros [= _ <-]. by apply R_fresh_tensor.
Qed.

Lemma respects_loadOperator op : respects R (loadOperator op).
Proof.
  unfold loadOperator.
  apply respects_bind; [apply R_common|]. intros common.
  destruct common; [apply respects_mret|].
  destruct (decide (op_type op = "Constant")); [apply respects_loadConstant|].
  unfold loadConv, loadPool, loadGlobalAveragePool, loadSqueeze, loadDropout,
    loadBatchNormalization, loadConcat, loadGemm, loadTranspose, loadBias,
    getBroadcast.
  repeat first [ apply respects_getOrCreateVariableByName
               | apply respects_loadInputsOf
               | respects_step ].
Qed.

Lemma respects_loadNetwork_loop nodes : respects R (loadNetwork_loop nodes).
Proof.
  induction nodes as [|op rest IH]; simpl; [apply respects_mret|].
  apply respects_bind; [apply respects_loadOperator|].
  intros []; [exact IH|].
  apply respects_bind; [apply respects_unexpectedNodeError|].
  intros _. apply respects_mret.
Qed.
End Respects.

#[global] Instance tensors_kept_preorder : PreOrder tensors_kept.
Proof.
  split; [by intros s k T|].
  intros s1 s2 s3 H12 H23 k T Hk. by apply H23, H12.
Qed.

#[global] Instance graph_extended_preorder : PreOrder graph_extended.
Proof.
  split; [by intros s|].
  intros s1 s2 s3 [HG12 HV12] [HG23 HV23]. split; by etransitivity.
Qed.

(** X8.  Lowering never replaces an entry of the tensor table: whatever
    nodes [loadNetwork] processes and however it ends, every tensor the
    table held before is still there, unchanged (the parent class being
    assumed to keep the entries too).  The Constant branch adds an entry
    only under a name that has none. *)
Theorem loadNetwork_keeps_tensors `{Collaborators} (net : GraphProto)
    (s s' : Loader) (ok : bool) :
  (forall typeName op dict,
      respects tensors_kept (tryLoadCommonOperator typeName op dict)) ->
  loadNetwork net s = Ok (ok, s') ->
  forall k T, tensors_ s !! k = Some T -> tensors_ s' !! k = Some T.
Proof.
  intros Hcommon Hrun.
  refine (respects_loadNetwork_loop tensors_kept _ _ _ _ _ Hcommon
            (node net) s ok s' Hrun); try (by intros f s0 k T).
  intros name T s0 Hnone k T0 Hk. simpl.
  rewrite lookup_insert_ne; [done|]. intros ->. congruence.
Qed.

Lemma loadNetwork_keeps_tensors_witness :
  exists s',
    @loadNetwork (example_collaborators initializer_model)
       constant_then_dropout prebound_loader = Ok (true, s') /\
    tensors_ prebound_loader !! "X" = Some caller_X /\
    tensors_ s' !! "X" = Some caller_X.
Proof.
  eexists.
  assert (Hrun : @loadNetwork (example_collaborators initializer_model)
                   constant_then_dropout prebound_loader = Ok (true, _))
    by (vm_compute; reflexivity).
  split; [exact Hrun|]. split; [reflexivity|].
  apply (@loadNetwork_keeps_tensors (example_collaborators initializer_model)
           constant_then_dropout prebound_loader _ true); [|exact Hrun|reflexivity].
  intros typeName op dict s a s' [= _ <-]. by intros k T.
Defined.

(** X9.  Lowering only appends: after [loadNetwork], however it ends, the
    nodes the function held before are a prefix of its nodes, and the
    variables of the module a prefix of its variables (the parent class
    being assumed to append only). *)
Theorem loadNetwork_appends `{Collaborators} (net : GraphProto)
    (s s' : Loader) (ok : bool) :
  (forall typeName op dict,
      respects graph_extended (tryLoadCommonOperator typeName op dict)) ->
  loadNetwork net s = Ok (ok, s') ->
  G_ s `prefix_of` G_ s' /\ variables_ s `prefix_of` variables_ s'.
Proof.
  intros Hcommon Hrun.
  refine (respects_loadNetwork_loop graph_extended _ _ _ _ _ Hcommon
            (node net) s ok s' Hrun).
  - intros f s0. split; [done|]. by apply prefix_app_r.
  - intros f s0. split; [|done]. by apply prefix_app_r.
  - by intros f s0.
  - by intros f s0.
  - by intros name T s0 _.
Qed.

Lemma loadNetwork_appends_witness :
  exists s',
    @loadNetwork (example_collaborators initializer_model)
       constant_then_dropout prebound_loader = Ok (true, s') /\
    G_ prebound_loader `prefix_of` G_ s' /\
    variables_ prebound_loader `prefix_of` variables_ s'.
Proof.
  eexists.
  assert (Hrun : @loadNetwork (example_collaborators initializer_model)
                   constant_then_dropout prebound_loader = Ok (true, _))
    by (vm_compute; reflexivity).
  split; [exact Hrun|].
  apply (@loadNetwork_appends (example_collaborators initializer_model)
           constant_then_dropout prebound_loader _ true); [|exact Hrun].
  intros typeName op dict s a s' [= _ <-]. by split.
Defined.

(** ** Lowering of the remaining operators *)

Lemma LM_bind_is_Err {A B} (m : LM A) (f : A -> LM B) s :
  (forall a s1, m s = Ok (a, s1) -> is_Err (f a s1)) -> is_Err ((m ≫= f) s).
Proof.
  intros Hf. unfold mbind, LM_bind.
  destruct (m s) as [[a s1]|e]; [by apply Hf | by eexists].
Qed.

(** What [loadOperator] runs once the parent class has declined. *)
Lemma loadOperator_declined `{Collaborators} (op : NodeProto) (s s0 : Loader) :
  tryLoadCommonOperator (op_type op) op (loadArgumentMap op) s = Ok (false, s0) ->
  forall typeName, op_type op = typeName ->
  loadOperator op s =
    (let dict := loadArgumentMap op in
     let opName := loadOperatorName op in
     if decide (typeName = "Constant") then loadConstant op dict
     else if decide (typeName = "Conv") then loadConv op dict opName
     else if decide (typeName = "MaxPool" \/ typeName = "AveragePool")
       then loadPool typeName op dict opName
     else if decide (typeName = "GlobalAveragePool")
       then loadGlobalAveragePool op dict opName
     else if decide (typeName = "Squeeze") then loadSqueeze false op dict opName
     else if decide (typeName = "Unsqueeze") then loadSqueeze true op dict opName
     else if decide (typeName = "Dropout") then loadDropout op
     else if decide (typeName = "BatchNormalization")
       then loadBatchNormalization op dict opName
     else if decide (typeName = "Concat") then loadConcat op dict opName
     else if decide (typeName = "Gemm") then loadGemm op dict opName
     else if decide (typeName = "Transpose")
       then _ ← loadTranspose op dict "perm" opName; mret true
     else mret false) s0.
Proof.
  intros Hcommon typeName <-. unfold loadOperator. by step_with Hcommon.
Qed.



(** X11.  Dropout is the identity: every declared output of the node is
    bound to the very value its first input resolves to, and no node is
    added to the function. *)
Theorem loadOperator_Dropout `{Collaborators} (op : NodeProto)
    (s s0 s1 : Loader) (in0 : string) (inN : Node) :
  op_type op = "Dropout" ->
  tryLoadCommonOperator "Dropout" op (loadArgumentMap op) s = Ok (false, s0) ->
  input op !! 0%nat = Some in0 ->
  getOrCreateVariableByName in0 s0 = Ok (inN, s1) ->
  exists s', loadOperator op s = Ok (true, s') /\
    G_ s' = G_ s1 /\ variables_ s' = variables_ s1 /\
    tensors_ s' = tensors_ s1 /\
    forall o, o ∈ output op -> nodeByName_ s' !! o = Some inN.
Proof.
  intros Htype Hcommon Hin0 Hin.
  rewrite <- Htype in Hcommon.
  rewrite (loadOperator_declined op s s0 Hcommon "Dropout" Htype).
  cbv zeta. do 3 skip_branch. do 3 skip_branch. rewrite decide_True by done.
  unfold loadDropout. step_liftR in0. step_with Hin. step_run.
  eexists. split; [reflexivity|]. simpl. do 3 (split; [done|]).
  intros o Ho. by apply foldl_insert_lookup.
Qed.

Lemma loadOperator_Dropout_witness :
  exists s',
    @loadOperator (example_collaborators opset7_model) dropout_node
       prebound_loader = Ok (true, s') /\
    G_ s' = [] /\
    nodeByName_ s' !! "Y" = Some (VariableNode "X" caller_X) /\
    nodeByName_ s' !! "X" = Some (VariableNode "X" caller_X).
Proof.
  destruct (@loadOperator_Dropout (example_collaborators opset7_model)
              dropout_node prebound_loader prebound_loader _ "X" _
              eq_refl eq_refl eq_refl eq_refl)
    as (s' & Hrun & HG & _ & _ & Hout).
  exists s'. split; [exact Hrun|]. split; [exact HG|].
  split; [apply Hout; by left|].
  revert Hrun. vm_compute. intros [= <-]. reflexivity.
Defined.

(** X12.  GlobalAveragePool requires a square image: when the last two
    dimensions of the channel-first input differ the node fails.  When
    they agree it becomes an average pool whose kernel is that extent,
    between the two layout transposes; with stride 1 and no padding the
    result has shape [n, c, 1, 1]. *)
Theorem loadOperator_GlobalAveragePool `{Collaborators} (op : NodeProto)
    (s s0 s1 : Loader) (in0 : string) (inN : Node) (stride n c h w : Z) :
  let dict := loadArgumentMap op in
  let opName := loadOperatorName op in
  op_type op = "GlobalAveragePool" ->
  tryLoadCommonOperator "GlobalAveragePool" op dict s = Ok (false, s0) ->
  input op !! 0%nat = Some in0 ->
  getOrCreateVariableByName in0 s0 = Ok (inN, s1) ->
  Node_dims inN = [n; c; h; w] ->
  loadStride dict = Ok stride ->
  (h <> w ->
     loadOperator op s = Err (Fail ShapeInvariantViolation
                                "For the image, height == weight is required")) /\
  (forall pads, h = w -> getPads dict = Ok pads ->
     exists s',
       let tr := TransposeNode opName inN NCHW2NHWC in
       let pool := PoolAvgNode opName tr h stride pads in
       let N := TransposeNode opName pool NHWC2NCHW in
       loadOperator op s = Ok (true, s') /\
       G_ s' = G_ s1 ++ [tr; pool; N] /\
       (forall o, o ∈ output op -> nodeByName_ s' !! o = Some N) /\
       (stride = 1 -> pads = [0; 0; 0; 0] -> 0 <= h < 2 ^ 64 ->
        Node_dims N = [n; c; 1; 1])).
Proof.
  intros dict opName Htype Hcommon Hin0 Hin Hdims Hstride.
  rewrite <- Htype in Hcommon.
  rewrite (loadOperator_declined op s s0 Hcommon "GlobalAveragePool" Htype).
  cbv zeta. do 3 skip_branch. rewrite decide_True by done.
  fold dict. fold opName. unfold loadGlobalAveragePool.
  step_liftR in0. step_with Hin. step_liftR stride by done.
  rewrite Hdims. step_liftR h by done. step_liftR w by done.
  split.
  - intros Hne. apply LM_bind_liftR_Err. unfold assert.
    by rewrite (proj2 (Z.eqb_neq h w) Hne).
  - intros pads <- Hpads.
    step_liftR tt by (unfold assert; by rewrite Z.eqb_refl).
    step_liftR pads by done. step_run. step_run. step_run. step_run.
    eexists. split; [reflexivity|]. simpl. split; [by rewrite <- !app_assoc|].
    split; [intros o Ho; by apply foldl_insert_lookup|].
    intros -> -> Hh. rewrite Hdims.
    change (shuffleDims [n; c; h; h] NCHW2NHWC) with [n; h; h; c].
    unfold poolDims. simpl.
    replace (h + 0 + 0 - h) with 0 by lia.
    by rewrite Z.div_1_r.
Qed.

Lemma loadOperator_GlobalAveragePool_witness :
  (exists s',
     let tr := TransposeNode "gap" pool_input NCHW2NHWC in
     let pool := PoolAvgNode "gap" tr 7 1 [0; 0; 0; 0] in
     let N := TransposeNode "gap" pool NHWC2NCHW in
     @loadOperator (example_collaborators opset7_model) global_average_node
        pools_loader = Ok (true, s') /\
     G_ s' = [tr; pool; N] /\
     Node_dims N = [1; 64; 1; 1]) /\
  @loadOperator (example_collaborators opset7_model) global_average_oblong
     pools_loader
    = Err (Fail ShapeInvariantViolation
             "For the image, height == weight is required").
Proof.
  split.
  - destruct (proj2 (@loadOperator_GlobalAveragePool
                (example_collaborators opset7_model) global_average_node
                pools_loader pools_loader pools_loader "data7" pool_input
                1 1 64 7 7 eq_refl eq_refl eq_refl eq_refl eq_refl eq_refl)
                [0; 0; 0; 0] eq_refl eq_refl)
      as (s' & Hrun & HG & _ & Hshape).
    exists s'. split; [exact Hrun|]. split; [exact HG|].
    apply Hshape; [reflexivity | reflexivity | lia].
  - apply (proj1 (@loadOperator_GlobalAveragePool
                (example_collaborators opset7_model) global_average_oblong
                pools_loader pools_loader pools_loader "data75" oblong_input
                1 1 64 7 5 eq_refl eq_refl eq_refl eq_refl eq_refl eq_refl)).
    lia.
Defined.

(** X13.  The attributes read without a presence test are required: a
    Squeeze or Unsqueeze node without [axes], and a Concat node without
    [axis], is never lowered. *)
Theorem loadOperator_required_attribute `{Collaborators} (op : NodeProto)
    (s s0 : Loader) :
  let dict := loadArgumentMap op in
  tryLoadCommonOperator (op_type op) op dict s = Ok (false, s0) ->
  ((op_type op = "Squeeze" \/ op_type op = "Unsqueeze") /\ dict !! "axes" = None)
  \/ (op_type op = "Concat" /\ dict !! "axis" = None) ->
  is_Err (loadOperator op s).
Proof.
  intros dict Hcommon Hcases.
  assert (Hsq : forall expand,
            dict !! "axes" = None ->
            is_Err (loadSqueeze expand op dict (loadOperatorName op) s0)).
  { intros expand Haxes. unfold loadSqueeze.
    apply LM_bind_is_Err. intros in0 s1 _.
    apply LM_bind_is_Err. intros inN s2 _.
    erewrite LM_bind_liftR_Err; [by eexists|].
    unfold dict_at. by rewrite Haxes. }
  destruct Hcases as [[[Ht|Ht] Haxes]|[Ht Haxis]];
    rewrite (loadOperator_declined op s s0 Hcommon _ Ht); cbv zeta.
  - do 3 skip_branch. skip_branch. rewrite decide_True by done. by apply Hsq.
  - do 3 skip_branch. do 2 skip_branch. rewrite decide_True by done.
    by apply Hsq.
  - do 3 skip_branch. do 3 skip_branch. do 2 skip_branch.
    rewrite decide_True by done. unfold loadConcat.
    apply LM_bind_is_Err. intros inputs s1 _.
    erewrite LM_bind_liftR_Err; [by eexists|].
    fold dict. unfold dict_at. by rewrite Haxis.
Qed.

Lemma loadOperator_required_attribute_witness :
  op_type squeeze_no_axes = "Squeeze" /\
  loadArgumentMap squeeze_no_axes !! "axes" = None /\
  is_Err (@loadOperator (example_collaborators opset7_model) squeeze_no_axes
            pools_loader).
Proof.
  split; [reflexivity|]. split; [reflexivity|].
  apply (@loadOperator_required_attribute (example_collaborators opset7_model)
           squeeze_no_axes pools_loader pools_loader eq_refl).
  left. split; [by left | reflexivity].
Defined.

(** The inputs of a node that are all bound resolve, in order, to the
    values bound, and the loader is unchanged. *)
Lemma loadInputsOf_bound (names : list string) (s : Loader) :
  (forall nm, nm ∈ names -> is_Some (nodeByName_ s !! nm)) ->
  loadInputsOf names s = Ok (omap (fun nm => nodeByName_ s !! nm) names, s).
Proof.
  induction names as [|nm names IH]; intros Hall; [done|].
  destruct (Hall nm) as [N HN]; [by left|].
  cbn [loadInputsOf].
  rewrite (LM_bind_Ok _ _ _ N s)
    by (unfold getOrCreateVariableByName; by rewrite HN).
  rewrite (LM_bind_Ok _ _ _ _ _
             (IH (fun nm' Hin => Hall nm' (list_elem_of_further _ _ _ Hin)))).
  simpl. by rewrite HN.
Qed.

(** X14.  Concat keeps the order of its inputs: when every input is
    already bound, the node becomes one concatenation of the bound values
    in the order the node lists them, along the integer [axis] attribute,
    and that node is bound to every declared output. *)
Theorem loadOperator_Concat `{Collaborators} (op : NodeProto)
    (s s0 : Loader) (a : AttributeProto) (axis : Z) :
  let dict := loadArgumentMap op in
  let opName := loadOperatorName op in
  op_type op = "Concat" ->
  tryLoadCommonOperator "Concat" op dict s = Ok (false, s0) ->
  (forall nm, nm ∈ input op -> is_Some (nodeByName_ s0 !! nm)) ->
  dict !! "axis" = Some a ->
  attr_value a = AInt axis ->
  exists s',
    let node := ConcatNode opName
                  (omap (fun nm => nodeByName_ s0 !! nm) (input op)) axis in
    loadOperator op s = Ok (true, s') /\
    length (omap (fun nm => nodeByName_ s0 !! nm) (input op))
      = length (input op) /\
    G_ s' = G_ s0 ++ [node] /\
    variables_ s' = variables_ s0 /\
    tensors_ s' = tensors_ s0 /\
    forall o, o ∈ output op -> nodeByName_ s' !! o = Some node.
Proof.
  intros dict opName Htype Hcommon Hbound Haxis Hval.
  rewrite <- Htype in Hcommon.
  rewrite (loadOperator_declined op s s0 Hcommon "Concat" Htype).
  cbv zeta. do 3 skip_branch. do 3 skip_branch. do 2 skip_branch.
  rewrite decide_True by done. fold dict. fold opName. unfold loadConcat.
  step_with (loadInputsOf_bound (input op) s0 Hbound).
  step_liftR axis by (unfold dict_at, loadInt; by rewrite Haxis; simpl; rewrite Hval).
  step_run. step_run.
  eexists. split; [reflexivity|]. simpl. split.
  - clear -Hbound. induction (input op) as [|nm l IH]; [done|].
    destruct (Hbound nm) as [N HN]; [by left|]. simpl. rewrite HN. simpl.
    f_equal. apply IH. intros nm' Hin. apply Hbound. by right.
  - do 3 (split; [done|]). intros o Ho. by apply foldl_insert_lookup.
Qed.

Lemma loadOperator_Concat_witness :
  exists s',
    let node := ConcatNode "cat" [pool_input; oblong_input; pool_input] 1 in
    @loadOperator (example_collaborators opset7_model) concat_node pools_loader
      = Ok (true, s') /\
    G_ s' = [node] /\
    nodeByName_ s' !! "cat_out" = Some node.
Proof.
  destruct (@loadOperator_Concat (example_collaborators opset7_model)
              concat_node pools_loader pools_loader
              (attr "axis" (AInt 1)) 1 eq_refl eq_refl)
    as (s' & Hrun & _ & HG & _ & _ & Hout); [|reflexivity|reflexivity|].
  { intros nm Hnm. simpl in Hnm.
    repeat (apply elem_of_cons in Hnm as [->|Hnm]; [by eexists|]).
    by apply elem_of_nil in Hnm. }
  exists s'. split; [exact Hrun|]. split; [exact HG|].
  apply Hout. by left.
Defined.

(** An input that is already bound resolves to the bound value and leaves
    the loader as it is. *)
Lemma resolve_bound_input (op : NodeProto) (i : nat) (nm : string) (N : Node)
    (s : Loader) :
  input op !! i = Some nm -> nodeByName_ s !! nm = Some N ->
  (nm ← liftR (repeated_at (input op) i); getOrCreateVariableByName nm) s
    = Ok (N, s).
Proof.
  intros Hi HN. step_liftR nm.
  unfold getOrCreateVariableByName. by rewrite HN.
Qed.

Lemma resolve_tensor_input (op : NodeProto) (i : nat) (nm : string) (T : Tensor)
    (s : Loader) :
  input op !! i = Some nm -> tensors_ s !! nm = Some T ->
  (nm ← liftR (repeated_at (input op) i); getTensorByName nm) s = Ok (T, s).
Proof.
  intros Hi HT. step_liftR nm. unfold getTensorByName. by rewrite HT.
Qed.

Lemma loadFlag_value (dict : ArgumentDictionaryTy) (key : string) (b : bool) :
  loadFlag dict key = Ok b ->
  (dict !! key = None -> b = false) /\
  (forall a i, dict !! key = Some a -> attr_value a = AInt i ->
     b = negb (i =? 0)).
Proof.
  unfold loadFlag. intros Hb. split.
  - intros Hk. rewrite (dict_count_None dict _ Hk) in Hb. congruence.
  - intros a i Hk Hval.
    destruct (dict_count_Some dict _ _ Hk) as [Hc Hat].
    rewrite Hc, Hat in Hb. simpl in Hb. unfold loadInt in Hb.
    rewrite Hval in Hb. simpl in Hb. congruence.
Qed.

(** X15.  Gemm over bound operands A, B, C: A and B are each transposed
    when [transA], respectively [transB], is present with any non-zero
    integer; the product is one MatMul; when the broadcast policy holds, C
    is broadcast to the product's shape along the axis rank(product) -
    rank(C), and it always holds above opset version 6, whatever the
    [broadcast] attribute; the result is the sum, bound to the outputs.
    Nothing scales by alpha or beta. *)
Theorem loadOperator_Gemm `{Collaborators} (op : NodeProto) (s s0 : Loader)
    (nA nB nC : string) (A B C : Node) (tA tB bc : bool) :
  let dict := loadArgumentMap op in
  let opName := loadOperatorName op in
  op_type op = "Gemm" ->
  tryLoadCommonOperator "Gemm" op dict s = Ok (false, s0) ->
  input op !! 0%nat = Some nA -> nodeByName_ s0 !! nA = Some A ->
  input op !! 1%nat = Some nB -> nodeByName_ s0 !! nB = Some B ->
  input op !! 2%nat = Some nC -> nodeByName_ s0 !! nC = Some C ->
  getBroadcast dict s0 = Ok (bc, s0) ->
  loadFlag dict "transA" = Ok tA ->
  loadFlag dict "transB" = Ok tB ->
  exists s',
    let A' := if tA then TransposeNode opName A [1; 0] else A in
    let B' := if tB then TransposeNode opName B [1; 0] else B in
    let mul := MatMulNode opName A' B' in
    let C' := if bc
              then BroadcastNode opName C (Node_dims mul)
                     (to_int (Z.of_nat (length (Node_dims mul))
                              - Z.of_nat (length (Node_dims C))))
              else C in
    let node := AddNode opName mul C' in
    loadOperator op s = Ok (true, s') /\
    G_ s' = G_ s0 ++ (if tA then [A'] else []) ++ (if tB then [B'] else [])
                  ++ [mul] ++ (if bc then [C'] else []) ++ [node] /\
    (forall o, o ∈ output op -> nodeByName_ s' !! o = Some node) /\
    (6 < opsetVersion_ s0 -> bc = true) /\
    (forall a i, dict !! "transA" = Some a -> attr_value a = AInt i ->
       tA = negb (i =? 0)) /\
    (forall a i, dict !! "transB" = Some a -> attr_value a = AInt i ->
       tB = negb (i =? 0)).
Proof.
  intros dict opName Htype Hcommon HnA HA HnB HB HnC HC Hbc HtA HtB.
  rewrite <- Htype in Hcommon.
  rewrite (loadOperator_declined op s s0 Hcommon "Gemm" Htype).
  cbv zeta. do 3 skip_branch. do 3 skip_branch. do 3 skip_branch.
  rewrite decide_True by done. fold dict. fold opName. unfold loadGemm.
  step_with (resolve_bound_input op 0 nA A s0 HnA HA).
  step_with (resolve_bound_input op 1 nB B s0 HnB HB).
  step_with (resolve_bound_input op 2 nC C s0 HnC HC).
  step_with Hbc. step_liftR tA by done. step_liftR tB by done.
  assert (Hopset : 6 < opsetVersion_ s0 -> bc = true).
  { intros Hv. unfold getBroadcast, gets, mbind, LM_bind in Hbc.
    rewrite (proj2 (Z.ltb_lt _ _) Hv) in Hbc. by injection Hbc as <-. }
  destruct tA, tB, bc; repeat step_run;
    (eexists; split; [reflexivity|]; simpl;
     split; [by rewrite <- ?app_assoc|];
     split; [intros o Ho; by apply foldl_insert_lookup|];
     split; [exact Hopset|];
     split; [apply (loadFlag_value dict "transA" _ HtA)
            |apply (loadFlag_value dict "transB" _ HtB)]).
Qed.

Lemma loadOperator_Gemm_witness :
  exists s',
    let B' := TransposeNode "fc" gemm_B [1; 0] in
    let mul := MatMulNode "fc" gemm_A B' in
    let C' := BroadcastNode "fc" gemm_C [2; 4] 1 in
    let node := AddNode "fc" mul C' in
    @loadOperator (example_collaborators opset7_model) gemm_node gemm_loader
      = Ok (true, s') /\
    G_ s' = [B'; mul; C'; node] /\
    nodeByName_ s' !! "fc_out" = Some node.
Proof.
  destruct (@loadOperator_Gemm (example_collaborators opset7_model)
              gemm_node gemm_loader gemm_loader "A" "B" "C"
              gemm_A gemm_B gemm_C false true true
              eq_refl eq_refl eq_refl eq_refl eq_refl eq_refl eq_refl eq_refl
              eq_refl eq_refl eq_refl)
    as (s' & Hrun & HG & Hout & _).
  exists s'. split; [exact Hrun|]. split; [exact HG|].
  apply Hout. by left.
Defined.

(** X16.  BatchNormalization binds the four tensors the table holds under
    its second to fifth input as scale, bias, mean and variance of a
    batch-normalisation over channel dimension 1 of its first input;
    epsilon is 1e-5 unless an [epsilon] attribute gives another value. *)
Theorem loadOperator_BatchNormalization `{Collaborators} (op : NodeProto)
    (s s0 s1 : Loader) (in0 n1 n2 n3 n4 : string) (inN : Node)
    (scale bias mean var : Tensor) (epsilon : float32) :
  let dict := loadArgumentMap op in
  let opName := loadOperatorName op in
  op_type op = "BatchNormalization" ->
  tryLoadCommonOperator "BatchNormalization" op dict s = Ok (false, s0) ->
  input op !! 0%nat = Some in0 ->
  getOrCreateVariableByName in0 s0 = Ok (inN, s1) ->
  input op !! 1%nat = Some n1 -> tensors_ s1 !! n1 = Some scale ->
  input op !! 2%nat = Some n2 -> tensors_ s1 !! n2 = Some bias ->
  input op !! 3%nat = Some n3 -> tensors_ s1 !! n3 = Some mean ->
  input op !! 4%nat = Some n4 -> tensors_ s1 !! n4 = Some var ->
  match dict !! "epsilon" with
  | Some a => loadFloat a
  | None => Ok default_epsilon
  end = Ok epsilon ->
  exists s',
    let node := BatchNormalizationNode opName inN scale bias mean var 1
                  epsilon in
    loadOperator op s = Ok (true, s') /\
    G_ s' = G_ s1 ++ [node] /\
    (forall o, o ∈ output op -> nodeByName_ s' !! o = Some node) /\
    (dict !! "epsilon" = None -> epsilon = 925353388) /\
    (forall a e, dict !! "epsilon" = Some a -> attr_value a = AFloat e ->
       epsilon = e).
Proof.
  intros dict opName Htype Hcommon Hin0 Hin H1 Hs H2 Hb H3 Hm H4 Hv Heps.
  rewrite <- Htype in Hcommon.
  rewrite (loadOperator_declined op s s0 Hcommon "BatchNormalization" Htype).
  cbv zeta. do 3 skip_branch. do 3 skip_branch. skip_branch.
  rewrite decide_True by done. fold dict. fold opName.
  unfold loadBatchNormalization.
  step_liftR in0. step_with Hin.
  step_with (resolve_tensor_input op 1 n1 scale s1 H1 Hs).
  step_with (resolve_tensor_input op 2 n2 bias s1 H2 Hb).
  step_with (resolve_tensor_input op 3 n3 mean s1 H3 Hm).
  step_with (resolve_tensor_input op 4 n4 var s1 H4 Hv).
  step_liftR epsilon by done. step_run. step_run.
  eexists. split; [reflexivity|]. simpl. split; [done|].
  split; [intros o Ho; by apply foldl_insert_lookup|]. split.
  - intros Hnone. rewrite Hnone in Heps. by injection Heps as <-.
  - intros a e Ha Hval. rewrite Ha in Heps. unfold loadFloat in Heps.
    rewrite Hval in Heps. by injection Heps as <-.
Qed.

Lemma loadOperator_BatchNormalization_witness :
  exists s',
    let node := BatchNormalizationNode "bn" pool_input bn_param bn_param
                  bn_param bn_param 1 925353388 in
    @loadOperator (example_collaborators opset7_model) bn_node bn_loader
      = Ok (true, s') /\
    G_ s' = [node] /\
    nodeByName_ s' !! "bn_out" = Some node.
Proof.
  destruct (@loadOperator_BatchNormalization
              (example_collaborators opset7_model) bn_node
              bn_loader bn_loader bn_loader "data7" "scale" "bias" "mean" "var"
              pool_input bn_param bn_param bn_param bn_param 925353388
              eq_refl eq_refl eq_refl eq_refl eq_refl eq_refl eq_refl eq_refl
              eq_refl eq_refl eq_refl eq_refl eq_refl)
    as (s' & Hrun & HG & Hout & _).
  exists s'. split; [exact Hrun|]. split; [exact HG|].
  apply Hout. by left.
Defined.

(** The bias a convolution gets: the table's tensor under the third input
    when there is one, zeros of length [depth] otherwise. *)
Lemma loadBias_value (op : NodeProto) (depth : Z) (s : Loader) :
  loadBias op depth s =
    Ok (match input op !! 2%nat with
        | Some nm => default (zeroBias depth) (tensors_ s !! nm)
        | None => zeroBias depth
        end, s).
Proof.
  unfold loadBias.
  destruct (bool_decide (2 < length (input op))%nat) eqn:Hb.
  - apply bool_decide_eq_true_1 in Hb.
    destruct (lookup_lt_is_Some_2 (input op) 2 Hb) as [nm Hnm]. rewrite Hnm.
    step_liftR nm. unfold mbind, LM_bind, gets, getTensorByName.
    destruct (tensors_ s !! nm) as [b|] eqn:Hnmb.
    + rewrite bool_decide_eq_true_2 by done. by rewrite Hnmb.
    + by rewrite bool_decide_eq_false_2 by by intros [? ?].
  - apply bool_decide_eq_false_1 in Hb.
    by rewrite (lookup_ge_None_2 (input op) 2) by lia.
Qed.

(** The steps of the Conv branch up to the creation of the filter. *)
Ltac conv_prefix Htype Hcommon stride group pads in0 Hin in1 wT Hw wtag :=
  rewrite <- Htype in Hcommon;
  rewrite (loadOperator_declined _ _ _ Hcommon "Conv" Htype);
  cbv zeta; skip_branch; rewrite decide_True by done;
  unfold loadConv;
  step_liftR stride by done;
  step_liftR group by done;
  step_liftR pads by done;
  step_liftR in0;
  step_with Hin;
  step_liftR in1;
  rewrite (LM_bind_Ok _ _ _ wT _) by (unfold getTensorByName; by rewrite Hw);
  step_liftR wtag by done.

Lemma conv_group_readable (dict : ArgumentDictionaryTy) :
  (forall a, dict !! "group" = Some a -> exists g, attr_value a = AInt g) ->
  exists group,
    (if dict_count dict "group"
     then a ← dict_at dict "group"; g ← loadInt a; Ok (to_unsigned g)
     else Ok 1) = Ok group /\
    (dict !! "group" = None -> group = 1).
Proof.
  intros Hgroup. destruct (dict !! "group") as [a|] eqn:E.
  - destruct (dict_count_Some dict _ _ E) as [-> ->].
    destruct (Hgroup a eq_refl) as [g Hval]. simpl. unfold loadInt.
    rewrite Hval. simpl. by eexists.
  - rewrite (dict_count_None dict _ E). by exists 1.
Qed.

(** X17.  A Conv node without [kernel_shape] infers the kernel from the
    weights and accepts square kernels only: when the last two dimensions
    of the weight tensor differ the node fails. *)
Theorem loadOperator_Conv_oblong_kernel `{Collaborators} (op : NodeProto)
    (s s0 s1 : Loader) (in0 in1 : string) (inN : Node) (wT : Tensor)
    (stride : Z) (pads : list Z) (d0 d1 d2 d3 : Z) :
  let dict := loadArgumentMap op in
  op_type op = "Conv" ->
  tryLoadCommonOperator "Conv" op dict s = Ok (false, s0) ->
  loadStride dict = Ok stride ->
  (forall a, dict !! "group" = Some a -> exists g, attr_value a = AInt g) ->
  getPads dict = Ok pads ->
  input op !! 0%nat = Some in0 ->
  getOrCreateVariableByName in0 s0 = Ok (inN, s1) ->
  input op !! 1%nat = Some in1 ->
  tensors_ s1 !! in1 = Some wT ->
  t_dims wT = [d0; d1; d2; d3] ->
  dict !! "kernel_shape" = None ->
  d2 <> d3 ->
  loadOperator op s
    = Err (Fail ShapeInvariantViolation "Only square kernels are supported").
Proof.
  intros dict Htype Hcommon Hstride Hgroup Hpads Hin0 Hin Hin1 Hw Hwdims
    Hkernel Hne.
  destruct (conv_group_readable dict Hgroup) as (group & Hg & _).
  destruct (Tensor_transpose_dims wT NCHW2NHWC) as (wtag & Hwtag & Htagdims & _);
    [by rewrite Hwdims|].
  rewrite Hwdims in Htagdims.
  change (shuffleDims _ _) with [d0; d2; d3; d1] in Htagdims.
  fold dict in Hcommon.
  conv_prefix Htype Hcommon stride group pads in0 Hin in1 wT Hw wtag.
  fold dict.
  step_liftR d0 by (by rewrite Htagdims).
  step_run. rewrite (dict_count_None dict _ Hkernel).
  simpl Node_dims. rewrite Htagdims.
  apply LM_bind_liftR_Err. simpl. unfold assert.
  by rewrite (proj2 (Z.eqb_neq d2 d3) Hne).
Qed.

Lemma loadOperator_Conv_oblong_kernel_witness :
  loadArgumentMap conv_oblong_node !! "kernel_shape" = None /\
  tensors_ conv35_loader !! "W35" = Some (Tensor_reset FloatTy [16; 3; 3; 5]) /\
  @loadOperator (example_collaborators opset7_model) conv_oblong_node
     conv35_loader
    = Err (Fail ShapeInvariantViolation "Only square kernels are supported").
Proof.
  split; [reflexivity|]. split; [reflexivity|].
  apply (@loadOperator_Conv_oblong_kernel (example_collaborators opset7_model)
           conv_oblong_node conv35_loader conv35_loader
           (set_nodeByName (insert "data" conv_input)
              (set_variables (fun vs => vs ++ [conv_input]) conv35_loader))
           "data" "W35" conv_input (Tensor_reset FloatTy [16; 3; 3; 5])
           1 [0; 0; 0; 0] 16 3 3 5 eq_refl eq_refl eq_refl
           (fun a => empty_dict_absent "group" a _)
           eq_refl eq_refl eq_refl eq_refl eq_refl eq_refl eq_refl).
  lia.
Defined.

(** X18.  A Conv node that states [kernel_shape] uses the head of that
    attribute as the kernel and does not look at the weight's spatial
    dimensions; stride and pads come from the attributes; the bias is the
    table's tensor under the third input when there is one and zeros of
    length output-depth otherwise; the convolution's declared shape is
    [n, oh, ow, depth] with [oh, ow] from the output-size formula and depth
    the leading weight dimension, and the node's result is channel-first
    again. *)
Theorem loadOperator_Conv_explicit `{Collaborators} (op : NodeProto)
    (s s0 s1 : Loader) (in0 in1 : string) (inN : Node) (wT : Tensor)
    (a : AttributeProto) (k0 stride : Z) (pads : list Z)
    (n c h w d0 d1 d2 d3 oh ow : Z) :
  let dict := loadArgumentMap op in
  let opName := loadOperatorName op in
  op_type op = "Conv" ->
  tryLoadCommonOperator "Conv" op dict s = Ok (false, s0) ->
  loadStride dict = Ok stride ->
  (forall a, dict !! "group" = Some a -> exists g, attr_value a = AInt g) ->
  getPads dict = Ok pads ->
  input op !! 0%nat = Some in0 ->
  getOrCreateVariableByName in0 s0 = Ok (inN, s1) ->
  Node_dims inN = [n; c; h; w] ->
  input op !! 1%nat = Some in1 ->
  tensors_ s1 !! in1 = Some wT ->
  t_dims wT = [d0; d1; d2; d3] ->
  dict !! "kernel_shape" = Some a ->
  getConstantArrayHead a = Ok k0 ->
  calculateConvPoolOutputDims h w (to_unsigned k0) (to_size_t stride) pads
    = Ok (oh, ow) ->
  exists wtag group s',
    let biasTensor := match input op !! 2%nat with
                      | Some nm => default (zeroBias d0) (tensors_ s1 !! nm)
                      | None => zeroBias d0
                      end in
    let filter := VariableNode "conv.filter" wtag in
    let bias := VariableNode "conv.bias" biasTensor in
    let tr := TransposeNode opName inN NCHW2NHWC in
    let conv := ConvolutionNode opName tr filter bias
                  (FloatTy, [n; oh; ow; d0]) (to_unsigned k0) stride pads
                  group in
    let N := TransposeNode opName conv NHWC2NCHW in
    loadOperator op s = Ok (true, s') /\
    Tensor_transpose wT NCHW2NHWC = Ok wtag /\
    t_dims wtag = [d0; d2; d3; d1] /\
    (dict !! "group" = None -> group = 1) /\
    G_ s' = G_ s1 ++ [tr; conv; N] /\
    variables_ s' = variables_ s1 ++ [filter; bias] /\
    tensors_ s' = tensors_ s1 /\
    (forall o, o ∈ output op -> nodeByName_ s' !! o = Some N) /\
    Node_dims N = [n; d0; oh; ow].
Proof.
  intros dict opName Htype Hcommon Hstride Hgroup Hpads Hin0 Hin Hdims
    Hin1 Hw Hwdims Hkernel Hk0 Hout.
  destruct (conv_group_readable dict Hgroup) as (group & Hg & Hg1).
  destruct (Tensor_transpose_dims wT NCHW2NHWC) as (wtag & Hwtag & Htagdims & _);
    [by rewrite Hwdims|].
  rewrite Hwdims in Htagdims.
  change (shuffleDims _ _) with [d0; d2; d3; d1] in Htagdims.
  destruct (dict_count_Some dict _ _ Hkernel) as [Hkc Hka].
  exists wtag, group. eexists.
  split; [|split; [exact Hwtag | split; [exact Htagdims | split; [exact Hg1|]]]].
  - fold dict in Hcommon.
    conv_prefix Htype Hcommon stride group pads in0 Hin in1 wT Hw wtag.
    fold dict. fold opName.
    step_liftR d0 by (by rewrite Htagdims).
    step_run. rewrite Hkc.
    step_liftR (to_unsigned k0) by (rewrite Hka; simpl; by rewrite Hk0).
    step_with (loadBias_value op d0
                 (set_variables (fun vs => vs ++ [VariableNode "conv.filter" wtag]) s1)).
    step_run. step_run.
    simpl Node_dims. rewrite Hdims.
    change (shuffleDims [n; c; h; w] NCHW2NHWC) with [n; h; w; c].
    step_liftR {| shape_n := n; shape_h := h; shape_w := w; shape_c := c |}
      by done.
    step_liftR (oh, ow) by done.
    step_run. step_run. step_run.
    reflexivity.
  - simpl.
    split; [by rewrite <- !app_assoc|]. split; [by rewrite <- !app_assoc|].
    split; [done|]. split; [|done].
    intros o Ho. by apply foldl_insert_lookup.
Qed.

Lemma loadOperator_Conv_explicit_witness :
  exists wtag s',
    let tr := TransposeNode "conv2" conv_input NCHW2NHWC in
    let conv := ConvolutionNode "conv2" tr (VariableNode "conv.filter" wtag)
                  (VariableNode "conv.bias" (zeroBias 16))
                  (FloatTy, [1; 16; 16; 16]) 3 2 [1; 1; 1; 1] 1 in
    let N := TransposeNode "conv2" conv NHWC2NCHW in
    @loadOperator (example_collaborators opset7_model) conv_explicit_node
       conv35_loader = Ok (true, s') /\
    t_dims wtag = [16; 3; 5; 3] /\
    G_ s' = [tr; conv; N] /\
    Node_dims N = [1; 16; 16; 16].
Proof.
  destruct (@loadOperator_Conv_explicit (example_collaborators opset7_model)
              conv_explicit_node conv35_loader conv35_loader
              (set_nodeByName (insert "data" conv_input)
                 (set_variables (fun vs => vs ++ [conv_input]) conv35_loader))
              "data" "W35" conv_input (Tensor_reset FloatTy [16; 3; 3; 5])
              (attr "kernel_shape" (AInts [3; 3])) 3 2 [1; 1; 1; 1]
              1 3 32 32 16 3 3 5 16 16
              eq_refl eq_refl eq_refl)
    as (wtag & group & s' & Hrun & _ & Hwtag & Hgroup & HG & _ & _ & _ & HN);
    try reflexivity.
  { intros a0 Ha. revert Ha. vm_compute. discriminate. }
  exists wtag, s'. rewrite (Hgroup eq_refl) in *.
  exact (conj Hrun (conj Hwtag (conj HG HN))).
Defined.

(** X19.  Without [global_pooling] a MaxPool or AveragePool node pools
    with the head of its [kernel_shape] attribute as kernel, the stride and
    pads of the shared rules, a max-pool for "MaxPool" and an average-pool
    for "AveragePool", between the two layout transposes. *)
Theorem loadOperator_Pool_kernel_shape `{Collaborators} (op : NodeProto)
    (s s0 s1 : Loader) (in0 : string) (inN : Node) (a : AttributeProto)
    (k stride : Z) (pads : list Z) :
  let dict := loadArgumentMap op in
  let opName := loadOperatorName op in
  op_type op = "MaxPool" \/ op_type op = "AveragePool" ->
  tryLoadCommonOperator (op_type op) op dict s = Ok (false, s0) ->
  input op !! 0%nat = Some in0 ->
  getOrCreateVariableByName in0 s0 = Ok (inN, s1) ->
  loadStride dict = Ok stride ->
  dict !! "kernel_shape" = Some a ->
  getConstantArrayHead a = Ok k ->
  getPads dict = Ok pads ->
  dict !! "global_pooling" = None ->
  exists s',
    let tr := TransposeNode opName inN NCHW2NHWC in
    let pool := if decide (op_type op = "MaxPool")
                then PoolMaxNode opName tr (to_size_t k) stride pads
                else PoolAvgNode opName tr (to_size_t k) stride pads in
    let N := TransposeNode opName pool NHWC2NCHW in
    loadOperator op s = Ok (true, s') /\
    G_ s' = G_ s1 ++ [tr; pool; N] /\
    variables_ s' = variables_ s1 /\
    tensors_ s' = tensors_ s1 /\
    forall o, o ∈ output op -> nodeByName_ s' !! o = Some N.
Proof.
  intros dict opName Htype Hcommon Hin0 Hin Hstride Hkernel Hk Hpads Hglobal.
  destruct (dict_count_Some dict _ _ Hkernel) as [_ Hka].
  assert (Hrun : loadOperator op s = loadPool (op_type op) op dict opName s0).
  { rewrite (loadOperator_declined op s s0 Hcommon _ eq_refl). cbv zeta.
    destruct Htype as [Ht|Ht]; rewrite Ht.
    - do 2 skip_branch. by rewrite decide_True by (by left).
    - do 2 skip_branch. by rewrite decide_True by (by right). }
  rewrite Hrun. unfold loadPool.
  step_liftR in0. step_with Hin. step_liftR stride by done.
  step_liftR (to_size_t k) by (rewrite Hka; simpl; by rewrite Hk).
  step_liftR pads by done. step_run.
  rewrite (dict_count_None dict _ Hglobal).
  step_liftR (to_size_t k) by done.
  destruct (decide (op_type op = "MaxPool")); step_run; step_run; step_run;
    (eexists; split; [reflexivity|]; simpl;
     split; [by rewrite <- !app_assoc|]; do 2 (split; [done|]);
     intros o Ho; by apply foldl_insert_lookup).
Qed.

Lemma loadOperator_Pool_kernel_shape_witness :
  exists s',
    let tr := TransposeNode "avg" pool_input NCHW2NHWC in
    let pool := PoolAvgNode "avg" tr 2 2 [0; 0; 0; 0] in
    let N := TransposeNode "avg" pool NHWC2NCHW in
    @loadOperator (example_collaborators opset7_model) average_pool_node
       pool_loader = Ok (true, s') /\
    G_ s' = [tr; pool; N] /\
    nodeByName_ s' !! "avg_out" = Some N.
Proof.
  destruct (@loadOperator_Pool_kernel_shape (example_collaborators opset7_model)
              average_pool_node pool_loader pool_loader pool_loader
              "data7" pool_input (attr "kernel_shape" (AInts [2; 2]))
              2 2 [0; 0; 0; 0] (or_intror eq_refl)
              eq_refl eq_refl eq_refl eq_refl eq_refl eq_refl eq_refl eq_refl)
    as (s' & Hrun & HG & _ & _ & Hout).
  exists s'. split; [exact Hrun|]. split; [exact HG|].
  apply Hout. by left.
Defined.

(** ** The standalone constructor *)

(** X20.  The standalone constructor goes on whatever the decoder's
    success flag says: once the file decoded into a graph that passes the
    version check, the initializers loaded and every node was lowered, it
    binds the outputs, and it succeeds exactly when the graph declares an
    output and every declared output was produced; each declared output is
    then bound to a save node of the value lowered under its name. *)
Theorem ONNXModelLoader_binds_outputs `{Collaborators}
    (modelDescFilename : string) (tensorNames : list string)
    (tensors : list Tensor) (F : list Node) (parsed : bool) (net : GraphProto)
    (l0 sA sB sC : Loader) :
  ProtobufLoader tensorNames tensors F = Ok l0 ->
  loadProto_file modelDescFilename l0 = Ok ((parsed, net), sA) ->
  loadInitializers net sA = Ok (tt, sB) ->
  loadNetwork net sB = Ok (true, sC) ->
  (is_Ok (ONNXModelLoader modelDescFilename tensorNames tensors F) <->
   graph_output net <> [] /\
   forall o, o ∈ graph_output net -> is_Some (nodeByName_ sC !! vi_name o)) /\
  (forall l, ONNXModelLoader modelDescFilename tensorNames tensors F = Ok l ->
     setOutputNodes net sC = Ok (tt, l) /\
     tensors_ l = tensors_ sC /\
     forall o r, o ∈ graph_output net -> nodeByName_ sC !! vi_name o = Some r ->
       outputsByName_ l !! vi_name o
         = Some (SaveNode ("save_" +:+ vi_name o) r)).
Proof.
  intros Hl0 Hproto Hinit Hnet.
  assert (Hrun : ONNXModelLoader modelDescFilename tensorNames tensors F =
                 match setOutputNodes net sC with
                 | Ok (_, l) => Ok l
                 | Err e => Err e
                 end).
  { unfold ONNXModelLoader. rewrite Hl0. simpl. unfold ONNXModelLoader_steps.
    step_with Hproto. step_with Hinit. step_with Hnet. reflexivity. }
  rewrite Hrun. unfold setOutputNodes.
  destruct (graph_output net) as [|o0 outs] eqn:Houts.
  { split; [|intros l [=]]. split; [intros [? [=]] | by intros [? _]]. }
  rewrite (LM_bind_liftR_Ok _ _ _ tt) by done. cbv beta.
  assert (Hunres : forall o, o ∈ o0 :: outs ->
            is_Ok (setOutputNodes_loop (o0 :: outs) sC) ->
            is_Some (nodeByName_ sC !! vi_name o)).
  { intros o Ho [x Hx]. destruct (nodeByName_ sC !! vi_name o) eqn:Hr; [done|].
    destruct (setOutputNodes_loop_unresolved _ sC o Ho Hr) as [e He].
    congruence. }
  split.
  - split.
    + intros [l Hl]. split; [done|]. intros o Ho. apply (Hunres o Ho).
      destruct (setOutputNodes_loop (o0 :: outs) sC) as [[[] l']|e]; [|done].
      by eexists.
    + intros [_ Hall].
      destruct (setOutputNodes_loop_run _ sC Hall) as (l & Hl & _).
      rewrite Hl. by eexists.
  - intros l Hl.
    destruct (setOutputNodes_loop (o0 :: outs) sC) as [[[] l']|e] eqn:Hloop;
      [|done].
    injection Hl as ->. split; [done|].
    assert (Hall : forall o, o ∈ o0 :: outs ->
                     is_Some (nodeByName_ sC !! vi_name o)).
    { intros o Ho. apply (Hunres o Ho). by eexists. }
    destruct (setOutputNodes_loop_run _ sC Hall)
      as (l'' & Hrun' & _ & Htensors & _ & Hout).
    assert (l'' = l) as -> by congruence.
    split; [done|]. intros o r Ho Hr. rewrite Hout.
    rewrite decide_True by (by apply list_elem_of_fmap_2).
    by rewrite Hr.
Qed.

Lemma ONNXModelLoader_binds_outputs_witness :
  exists l,
    @ONNXModelLoader (example_collaborators initializer_model)
       "model.onnx" ["X"] [caller_X] [] = Ok l /\
    outputsByName_ l !! "Y"
      = Some (SaveNode "save_Y"
                (VariableNode "X" {| elemKind := FloatTy; t_dims := [2];
                                     t_data := [1065353216; 1073741824] |})).
Proof.
  eexists.
  assert (Hrun : @ONNXModelLoader (example_collaborators initializer_model)
                   "model.onnx" ["X"] [caller_X] [] = Ok _)
    by (vm_compute; reflexivity).
  split; [exact Hrun|].
  refine (proj2 (proj2 (proj2
            (@ONNXModelLoader_binds_outputs
               (example_collaborators initializer_model)
               "model.onnx" ["X"] [caller_X] [] true (graph initializer_model)
               prebound_loader _ _ _ eq_refl eq_refl eq_refl eq_refl) _ Hrun))
            (float_value "Y") _ _ eq_refl).
  by left.
Defined.
